(** * currency-privat.py: EUR/USD rates of the trailing days

    A shallow embedding of [src/currency-privat.py] and the properties of
    its fetch-and-aggregate pipeline.

    - [PrivatBankCurrencyRatesFetcher._parse_response] is a pure function on
      the value that [response.json()] produced;
    - [PrivatBankCurrencyRatesFetcher.fetch_rates] is that parser behind one
      HTTP exchange and one [except aiohttp.ClientError] clause;
    - [CurrencyRatesService.get_rates_for_days] reads the clock once per
      offset, calls the fetcher once per date, joins the calls with
      [asyncio.gather] and drops the falsy results.

    Exceptions are values of [exn] carried by [outcome]; the clock, the
    HTTP exchange and the completion order of the concurrent calls are
    inputs; what the code does to the outside (clock readings, requests,
    printed diagnostics) is recorded as a list of [event]s. *)

From Stdlib Require Import ZArith List String Ascii Bool Lia Sorted.
Import ListNotations.

Open Scope string_scope.
Open Scope list_scope.
Open Scope Z_scope.

(** ** Python values and exceptions *)

(** What [json.loads] can produce.  A float is carried by its IEEE-754
    binary64 bit pattern: the program never computes with one.  A dict is
    an association list in insertion order, read by first match. *)
#[warnings="-register-all"]
Inductive value : Type :=
| PyNone
| PyBool (b : bool)
| PyInt (z : Z)
| PyFloat (bits : Z)
| PyStr (s : string)
| PyList (items : list value)
| PyDict (fields : list (string * value)).

(** The exceptions that can travel through the program.  [ClientError]
    stands for [aiohttp.ClientError] and all its subclasses
    ([ClientConnectionError], [ClientResponseError], [ContentTypeError]);
    [JSONDecodeError] and [UnicodeEncodeError] are [ValueError]s in Python
    and no [ClientError]s. *)
Inductive client_error : Type :=
| ClientConnectionError
| ClientResponseError (status : Z)
| ContentTypeError.

Inductive exn : Type :=
| ValueError (msg : string)
| OverflowError
| AttributeError
| TypeError
| JSONDecodeError
| UnicodeEncodeError
| TimeoutError
| ClientError (e : client_error).

Inductive outcome (A : Type) : Type :=
| Ok (a : A)
| Raise (e : exn).
Arguments Ok {A} a.
Arguments Raise {A} e.

Definition bind {A B : Type} (m : outcome A) (k : A -> outcome B) : outcome B :=
  match m with
  | Ok a => k a
  | Raise e => Raise e
  end.

Notation "x <- m ;; k" := (bind m (fun x => k))
  (at level 61, m at next level, right associativity).

(** ** Dicts *)

Section Dict.
Context {V : Type}.

Fixpoint dict_get (k : string) (d : list (string * V)) : option V :=
  match d with
  | [] => None
  | (k', v) :: d' => if String.eqb k k' then Some v else dict_get k d'
  end.

(** [d[k] = v]: an existing key keeps its place and takes the new value,
    a new key goes to the end. *)
Fixpoint dict_set (k : string) (v : V) (d : list (string * V)) : list (string * V) :=
  match d with
  | [] => [(k, v)]
  | (k', v') :: d' =>
      if String.eqb k k' then (k', v) :: d' else (k', v') :: dict_set k v d'
  end.

Definition dict_keys (d : list (string * V)) : list string := map fst d.

(** The truth value of a dict: it has a key. *)
Definition truthy (d : list (string * V)) : bool :=
  match d with [] => false | _ => true end.
End Dict.

(** [obj.get(key, default)]: only a dict has the method. *)
Definition py_get (obj : value) (key : string) (default : value) : outcome value :=
  match obj with
  | PyDict d => Ok (match dict_get key d with Some v => v | None => default end)
  | _ => Raise AttributeError
  end.

Fixpoint chars (s : string) : list value :=
  match s with
  | EmptyString => []
  | String c s' => PyStr (String c EmptyString) :: chars s'
  end.

(** [for x in obj]: a list gives its items, a dict its keys, a string its
    characters; nothing else that JSON produces is iterable. *)
Definition py_iter (obj : value) : outcome (list value) :=
  match obj with
  | PyList l => Ok l
  | PyDict d => Ok (map PyStr (dict_keys d))
  | PyStr s => Ok (chars s)
  | _ => Raise TypeError
  end.

(** ** The data model *)

(** [{"sale": ..., "purchase": ...}] *)
Record RateRecord : Type := { sale : value; purchase : value }.

(** currency code -> record *)
Definition Rates : Type := list (string * RateRecord).

(** What [fetch_rates] returns: [{date: rates}] or [{}]. *)
Definition DailyRates : Type := list (string * Rates).

(** ** PrivatBankCurrencyRatesFetcher._parse_response *)

Definition currencies : list string := ["EUR"; "USD"].

(** One turn of the loop, lines 32-36.  [rate.get("currency") in
    ["EUR", "USD"]] compares with [==]: of the values above only the
    strings "EUR" and "USD" themselves pass. *)
Definition parse_entry (rates : Rates) (rate : value) : outcome Rates :=
  c <- py_get rate "currency" PyNone ;;
  match c with
  | PyStr k =>
      if existsb (String.eqb k) currencies then
        s <- py_get rate "saleRate" PyNone ;;
        p <- py_get rate "purchaseRate" PyNone ;;
        Ok (dict_set k {| sale := s; purchase := p |} rates)
      else Ok rates
  | _ => Ok rates
  end.

Fixpoint parse_entries (rates : Rates) (items : list value) : outcome Rates :=
  match items with
  | [] => Ok rates
  | rate :: rest =>
      rates' <- parse_entry rates rate ;;
      parse_entries rates' rest
  end.

Definition _parse_response (data : value) (date : string) : outcome DailyRates :=
  arr <- py_get data "exchangeRate" (PyList []) ;;
  items <- py_iter arr ;;
  rates <- parse_entries [] items ;;
  Ok (if truthy rates then [(date, rates)] else []).

(** ** datetime: the proleptic Gregorian calendar

    [datetime.now() - timedelta(days=i)] goes through the day ordinal
    (1 is 01.01.0001), as [datetime.__sub__] does with [toordinal] and
    [fromordinal]; the two conversions follow CPython's [_ymd2ord] and
    [_ord2ymd]. *)

Record datetime : Type := {
  year : Z; month : Z; day : Z;
  hour : Z; minute : Z; second : Z; microsecond : Z
}.

Definition MAXORDINAL : Z := 3652059.   (* 31.12.9999 *)

Definition is_leap (y : Z) : bool :=
  (y mod 4 =? 0) && (negb (y mod 100 =? 0) || (y mod 400 =? 0)).

Definition DAYS_IN_MONTH (m : Z) : Z :=
  match m with
  | 1 => 31 | 2 => 28 | 3 => 31 | 4 => 30 | 5 => 31 | 6 => 30
  | 7 => 31 | 8 => 31 | 9 => 30 | 10 => 31 | 11 => 30 | 12 => 31
  | _ => -1
  end.

Definition DAYS_BEFORE_MONTH (m : Z) : Z :=
  match m with
  | 1 => 0 | 2 => 31 | 3 => 59 | 4 => 90 | 5 => 120 | 6 => 151
  | 7 => 181 | 8 => 212 | 9 => 243 | 10 => 273 | 11 => 304 | 12 => 334
  | _ => -1
  end.

Definition days_in_month (y m : Z) : Z :=
  if (m =? 2) && is_leap y then 29 else DAYS_IN_MONTH m.

Definition days_before_year (y : Z) : Z :=
  let y' := y - 1 in y' * 365 + y' / 4 - y' / 100 + y' / 400.

Definition days_before_month (y m : Z) : Z :=
  DAYS_BEFORE_MONTH m + (if (2 <? m) && is_leap y then 1 else 0).

Definition ymd2ord (y m d : Z) : Z :=
  days_before_year y + days_before_month y m + d.

Definition DI400Y : Z := 146097.
Definition DI100Y : Z := 36524.
Definition DI4Y : Z := 1461.

Definition ord2ymd (ordinal : Z) : Z * Z * Z :=
  let n := ordinal - 1 in
  let n400 := n / DI400Y in
  let n := n mod DI400Y in
  let y := n400 * 400 + 1 in
  let n100 := n / DI100Y in
  let n := n mod DI100Y in
  let n4 := n / DI4Y in
  let n := n mod DI4Y in
  let n1 := n / 365 in
  let n := n mod 365 in
  let y := y + n100 * 100 + n4 * 4 + n1 in
  if (n1 =? 4) || (n100 =? 4) then (y - 1, 12, 31)
  else
    let leapyear := (n1 =? 3) && (negb (n4 =? 24) || (n100 =? 3)) in
    let m := Z.shiftr (n + 50) 5 in
    let preceding := DAYS_BEFORE_MONTH m + (if (2 <? m) && leapyear then 1 else 0) in
    if n <? preceding then
      let m := m - 1 in
      let preceding :=
        preceding - (DAYS_IN_MONTH m + (if (m =? 2) && leapyear then 1 else 0)) in
      (y, m, n - preceding + 1)
    else (y, m, n - preceding + 1).

Definition toordinal (t : datetime) : Z := ymd2ord (year t) (month t) (day t).

(** A date of the calendar, years 1 to 9999; what [datetime.now()] can
    return. *)
Definition valid_ymd (y m d : Z) : Prop :=
  1 <= y <= 9999 /\ 1 <= m <= 12 /\ 1 <= d <= days_in_month y m.

Definition valid_datetime (t : datetime) : Prop :=
  valid_ymd (year t) (month t) (day t).

(** [t - timedelta(days=i)]: the date moves, the time of day stays. *)
Definition sub_days (t : datetime) (i : Z) : outcome datetime :=
  let o := toordinal t - i in
  if (0 <? o) && (o <=? MAXORDINAL) then
    let '(y, m, d) := ord2ymd o in
    Ok {| year := y; month := m; day := d;
          hour := hour t; minute := minute t; second := second t;
          microsecond := microsecond t |}
  else Raise OverflowError.

(** ** strftime("%d.%m.%Y") *)

Definition digit (n : Z) : ascii := ascii_of_nat (48 + Z.to_nat (n mod 10)).

Definition pad2 (n : Z) : string :=
  String (digit (n / 10)) (String (digit n) EmptyString).

Definition pad4 (n : Z) : string :=
  String (digit (n / 1000)) (String (digit (n / 100)) (pad2 n)).

(** [%Y] for the years of the calendar, 1 to 9999, as the C library
    behind CPython prints it: the decimal number, without leading zeros
    for a year below 1000. *)
Definition year_text (y : Z) : string :=
  if y <? 10 then String (digit y) EmptyString
  else if y <? 100 then pad2 y
  else if y <? 1000 then String (digit (y / 100)) (pad2 y)
  else pad4 y.

(** Day and month on two digits, then the year. *)
Definition strftime (t : datetime) : string :=
  (pad2 (day t) ++ "." ++ pad2 (month t) ++ "." ++ year_text (year t))%string.

(** ** Effects

    The program touches the outside three ways: it reads the clock, it
    sends a request, it prints a diagnostic.  A computation is its outcome
    together with the events it caused, in order. *)

Inductive event : Type :=
| Now                                   (* datetime.now() *)
| Get (date : string)                   (* session.get(BASE_URL, params) *)
| Printed (date : string) (e : exn).    (* print(f"Error fetching data for ...") *)

Definition io (A : Type) : Type := (outcome A * list event)%type.

Definition ret {A : Type} (a : A) : io A := (Ok a, []).

Definition raise {A : Type} (e : exn) : io A := (Raise e, []).

Definition io_bind {A B : Type} (m : io A) (k : A -> io B) : io B :=
  match m with
  | (Ok a, t) => let (r, t') := k a in (r, t ++ t')
  | (Raise e, t) => (Raise e, t)
  end.

Notation "x <~ m ;; k" := (io_bind m (fun x => k))
  (at level 61, m at next level, right associativity).

Fixpoint for_each {A B : Type} (f : A -> io B) (l : list A) : io (list B) :=
  match l with
  | [] => ret []
  | a :: rest =>
      b <~ f a ;;
      bs <~ for_each f rest ;;
      ret (b :: bs)
  end.

(** ** PrivatBankCurrencyRatesFetcher.fetch_rates *)

(** The body that [response.json()] reads: text that [json.loads] rejects,
    or the value it yields (an empty body yields [None]). *)
Inductive body : Type :=
| NotJSON
| Parsed (data : value).

(** What happens to one request: [session.get] raises, or a response with
    a status, a content type (is it application/json?) and a body arrives. *)
Inductive exchange : Type :=
| GetRaises (e : exn)
| Response (status : Z) (json_content_type : bool) (b : body).

Definition raise_for_status (status : Z) : outcome unit :=
  if 400 <=? status then Raise (ClientError (ClientResponseError status)) else Ok tt.

Definition json (json_content_type : bool) (b : body) : outcome value :=
  if json_content_type then
    match b with
    | NotJSON => Raise JSONDecodeError
    | Parsed data => Ok data
    end
  else Raise (ClientError ContentTypeError).

(** Lines 21-24, the body of the [try]. *)
Definition request (x : exchange) (date : string) : outcome DailyRates :=
  match x with
  | GetRaises e => Raise e
  | Response status ctype b =>
      _ <- raise_for_status status ;;
      data <- json ctype b ;;
      _parse_response data date
  end.

(** Lines 17-27: [except aiohttp.ClientError] prints and returns [{}];
    every other exception leaves the function. *)
Definition PrivatBank_fetch_rates (net : string -> exchange) (date : string)
  : io DailyRates :=
  match request (net date) date with
  | Raise (ClientError e) => (Ok [], [Get date; Printed date (ClientError e)])
  | r => (r, [Get date])
  end.

(** ** CurrencyRatesFetcher, the abstract class *)

(** [fetch_rates date] is the call run to its end; [eager date] says how
    many of its events come before the coroutine first suspends, which is
    what decides their place among the events of concurrent calls. *)
Class CurrencyRatesFetcher : Type := {
  fetch_rates : string -> io DailyRates;
  eager : string -> nat
}.

(** The provider fetcher calls [session.get] at once and suspends there
    for the response; what it prints, it prints after that. *)
Definition PrivatBankCurrencyRatesFetcher (net : string -> exchange)
  : CurrencyRatesFetcher :=
  {| fetch_rates := PrivatBank_fetch_rates net; eager := fun _ => 1%nat |}.

(** ** asyncio.gather

    A task is a call with the number of its eager events.  All tasks are
    started, in task order, and run to their first suspension before any
    of them is resumed; then they end one after the other, in the order
    that [completion] gives (task indices; an index out of range or given
    again is skipped, and the tasks it does not name end after the others,
    in task order).  When none raised, the results come back in task
    order.  Otherwise the awaiter gets the exception of the task that
    raised first and goes on at once: what the tasks still pending would
    have done after that is not part of the call. *)

Definition task (A : Type) : Type := (nat * io A)%type.

Definition result {A : Type} (t : task A) : outcome A := fst (snd t).

Definition early {A : Type} (t : task A) : list event := firstn (fst t) (snd (snd t)).

Definition late {A : Type} (t : task A) : list event := skipn (fst t) (snd (snd t)).

Fixpoint collect {A : Type} (outs : list (outcome A)) : outcome (list A) :=
  match outs with
  | [] => Ok []
  | Ok a :: rest => l <- collect rest ;; Ok (a :: l)
  | Raise e :: _ => Raise e
  end.

Fixpoint first_raised {A : Type} (completion : list nat) (outs : list (outcome A))
  : option exn :=
  match completion with
  | [] => None
  | i :: rest =>
      match nth_error outs i with
      | Some (Raise e) => Some e
      | _ => first_raised rest outs
      end
  end.

(** The tasks that end before the awaiter goes on, in the order in which
    they end: [order] is walked through, an index that names no task or
    comes again is skipped, and the first task that raised is the last. *)
Fixpoint settle {A : Type} (outs : list (outcome A)) (seen order : list nat) : list nat :=
  match order with
  | [] => []
  | i :: rest =>
      if existsb (Nat.eqb i) seen then settle outs seen rest
      else
        match nth_error outs i with
        | None => settle outs seen rest
        | Some (Raise _) => [i]
        | Some (Ok _) => i :: settle outs (i :: seen) rest
        end
  end.

Definition late_of {A : Type} (tasks : list (task A)) (i : nat) : list event :=
  match nth_error tasks i with
  | Some t => late t
  | None => []
  end.

Definition gather {A : Type} (completion : list nat) (tasks : list (task A))
  : io (list A) :=
  let outs := map result tasks in
  (match collect outs with
   | Ok l => Ok l
   | Raise e0 =>
       Raise (match first_raised completion outs with Some e => e | None => e0 end)
   end,
   flat_map early tasks ++
   flat_map (late_of tasks)
            (settle outs [] (completion ++ seq 0 (List.length tasks)))).

(** ** CurrencyRatesService.get_rates_for_days *)

(** [clock k] is what the k-th call of [datetime.now()] in the invocation
    returns: the comprehension of line 47 calls it anew for every [i]. *)
Definition date_at (clock : nat -> datetime) (i : nat) : io string :=
  (t <- sub_days (clock i) (Z.of_nat i) ;; Ok (strftime t), [Now]).

Definition date_range (clock : nat -> datetime) (days : Z) : io (list string) :=
  for_each (date_at clock) (seq 0 (Z.to_nat days)).

(** The coroutine of line 48 for one date. *)
Definition call {fetcher : CurrencyRatesFetcher} (date : string) : task DailyRates :=
  (eager date, fetch_rates date).

Definition get_rates_for_days {fetcher : CurrencyRatesFetcher}
    (clock : nat -> datetime) (completion : list nat) (days : Z)
  : io (list DailyRates) :=
  if (days <? 1) || (days >? 10) then
    raise (ValueError "Number of days must be between 1 and 10")
  else
    dates <~ date_range clock days ;;
    results <~ gather completion (map call dates) ;;
    ret (filter truthy results).

(** ** parse_args, main and the script

    [sys.argv] is a list of strings.  Python's [int] is taken as it comes:
    [int s] is the number it returns, or [None] when it raises
    [ValueError] (the only error it has for a string).  [sys.exit] ends a
    function with a status instead of a value. *)

Inductive control (A : Type) : Type :=
| Returns (a : A)
| Exits (code : Z)          (* SystemExit(code) *)
| Raises (e : exn).
Arguments Returns {A} a.
Arguments Exits {A} code.
Arguments Raises {A} e.

(** The lines that [parse_args] and [main] print. *)
Inductive line : Type :=
| Usage                                 (* "Usage: python currency-privat.py <number_of_days>" *)
| InvalidDays                           (* "Error: Please provide a valid number of days (1-10)" *)
| RatesJSON (rates : list DailyRates)   (* json.dumps(rates, indent=2, ensure_ascii=False) *)
| ErrorOccurred (e : exn).              (* f"An error occurred: {str(e)}" *)

(** What a run does, in order: the lines of [parse_args] and [main], and
    the events of the service in between. *)
Inductive action : Type :=
| Out (l : line)
| Inner (ev : event).

(** Lines 57-60, the body of the [try]. *)
Definition days_argument (int : string -> option Z) (arg : string) : outcome Z :=
  match int arg with
  | None => Raise (ValueError "invalid literal for int() with base 10")
  | Some days =>
      if (days <? 1) || (days >? 10) then Raise (ValueError "") else Ok days
  end.

Definition parse_args (int : string -> option Z) (argv : list string)
  : control Z * list line :=
  if negb (Nat.eqb (List.length argv) 2) then (Exits 1, [Usage])
  else
    match days_argument int (nth 1 argv "") with
    | Ok days => (Returns days, [])
    | Raise (ValueError _) => (Exits 1, [InvalidDays])
    | Raise e => (Raises e, [])
    end.

(** Lines 65-74.  Every exception of [exn] is an [Exception] in Python, so
    [except Exception] takes them all.  The [print] of line 72 sits inside
    the [try]: [encodable rates] says whether the text of
    [json.dumps(rates, ensure_ascii=False)] can be encoded for standard
    output (a lone surrogate in a string of the response cannot); when it
    cannot, [print] raises [UnicodeEncodeError] and nothing is written. *)
Definition main (int : string -> option Z) (encodable : list DailyRates -> bool)
    (net : string -> exchange)
    (clock : nat -> datetime) (completion : list nat) (argv : list string)
  : control unit * list action :=
  match parse_args int argv with
  | (Returns days, out) =>
      let fetcher := PrivatBankCurrencyRatesFetcher net in
      match @get_rates_for_days fetcher clock completion days with
      | (Ok rates, t) =>
          if encodable rates then
            (Returns tt, map Out out ++ map Inner t ++ [Out (RatesJSON rates)])
          else
            (Returns tt,
             map Out out ++ map Inner t ++ [Out (ErrorOccurred UnicodeEncodeError)])
      | (Raise e, t) =>
          (Returns tt, map Out out ++ map Inner t ++ [Out (ErrorOccurred e)])
      end
  | (Exits code, out) => (Exits code, map Out out)
  | (Raises e, out) => (Raises e, map Out out)
  end.

(** Lines 76-79, [asyncio.run(main())]: the exit status of the process. *)
Definition exit_status {A : Type} (c : control A) : Z :=
  match c with
  | Returns _ => 0
  | Exits code => code
  | Raises _ => 1
  end.

(** ** Vocabulary of the statements and sample worlds *)

(** The field of an entry as [rate.get(key)] reads it. *)
Definition field (key : string) (fields : list (string * value)) : value :=
  match dict_get key fields with Some v => v | None => PyNone end.

(** The record that lines 33-36 build from an entry. *)
Definition record_of (fields : list (string * value)) : RateRecord :=
  {| sale := field "saleRate" fields; purchase := field "purchaseRate" fields |}.

(** The entry carries currency code [k]. *)
Definition quotes (k : string) (rate : value) : Prop :=
  py_get rate "currency" PyNone = Ok (PyStr k).

(** The array that the loop of line 31 walks through. *)
Definition exchangeRate (data : value) : outcome (list value) :=
  arr <- py_get data "exchangeRate" (PyList []) ;; py_iter arr.

(** A JSON object. *)
Definition is_object (v : value) : Prop := exists fields, v = PyDict fields.

Definition sample_response : value :=
  PyDict [("date", PyStr "01.03.2024"); ("bank", PyStr "PB");
          ("exchangeRate",
           PyList [PyDict [("currency", PyStr "GBP"); ("saleRate", PyFloat 4632355532558365491)];
                   PyDict [("baseCurrency", PyStr "UAH")];
                   PyDict [("currency", PyStr "EUR"); ("saleRate", PyInt 42);
                           ("purchaseRate", PyInt 41)];
                   PyDict [("currency", PyStr "EUR"); ("purchaseRate", PyInt 40)]])].

(** 1 March 2024, shortly after noon. *)
Definition noon : datetime :=
  {| year := 2024; month := 3; day := 1;
     hour := 12; minute := 5; second := 0; microsecond := 0 |}.

Definition steady_clock : nat -> datetime := fun _ => noon.

Definition eur_only : value :=
  PyDict [("exchangeRate",
           PyList [PyDict [("currency", PyStr "GBP"); ("saleRate", PyInt 50)];
                   PyDict [("currency", PyStr "EUR"); ("saleRate", PyInt 42)]])].

(** Rates for 1 March, a 404 for 29 February, no rates before that. *)
Definition sample_net (date : string) : exchange :=
  if String.eqb date "01.03.2024" then Response 200 true (Parsed eur_only)
  else if String.eqb date "29.02.2024" then Response 404 true (Parsed PyNone)
  else Response 200 true (Parsed (PyDict [("exchangeRate", PyList [])])).

Definition sample_fetcher : CurrencyRatesFetcher :=
  PrivatBankCurrencyRatesFetcher sample_net.

Definition sample_result : list DailyRates :=
  [[("01.03.2024", [("EUR", {| sale := PyInt 42; purchase := PyNone |})])]].

Definition sample_trace : list event :=
  [Now; Now; Now; Get "01.03.2024"; Get "29.02.2024"; Get "28.02.2024";
   Printed "29.02.2024" (ClientError (ClientResponseError 404))].

(** Every reading of the clock is a date of the calendar after year 1, so
    that nine days earlier is still a date. *)
Definition clock_in_range (clock : nat -> datetime) : Prop :=
  forall i, valid_datetime (clock i) /\ 2 <= year (clock i).

(** The [days] readings of one invocation fall on one calendar day. *)
Definition same_day (clock : nat -> datetime) (days : Z) : Prop :=
  forall i, Z.of_nat i < days -> toordinal (clock i) = toordinal (clock 0%nat).

(** The date generated for offset [i]: a valid date, [i] days before the
    [i]-th reading, in its dd.mm.yyyy form. *)
Definition date_of_offset (clock : nat -> datetime) (i : nat) (d : string) : Prop :=
  exists tm, sub_days (clock i) (Z.of_nat i) = Ok tm /\ valid_datetime tm /\
             toordinal tm = toordinal (clock i) - Z.of_nat i /\ d = strftime tm.

(** A clock that passes midnight between its first and its second
    reading. *)
Definition midnight_clock (k : nat) : datetime :=
  match k with
  | O => {| year := 2023; month := 12; day := 31;
            hour := 23; minute := 59; second := 59; microsecond := 999999 |}
  | S _ => {| year := 2024; month := 1; day := 1;
              hour := 0; minute := 0; second := 0; microsecond := 0 |}
  end.

Definition is_dict (v : value) : bool :=
  match v with PyDict _ => true | _ => false end.

(** The shape the provider documents: an object whose [exchangeRate] is an
    array of objects. *)
Definition expected_shape (data : value) : bool :=
  match data with
  | PyDict fields =>
      match dict_get "exchangeRate" fields with
      | Some (PyList items) => forallb is_dict items
      | _ => false
      end
  | _ => false
  end.

(** A body that is no JSON, or JSON of another shape. *)
Definition malformed (b : body) : Prop :=
  match b with
  | NotJSON => True
  | Parsed data => expected_shape data = false
  end.

Definition garbled_net (date : string) : exchange := Response 200 true NotJSON.

Definition array_net (date : string) : exchange := Response 200 true (Parsed (PyList [])).

(** A fetcher of which every call raises a transport error. *)
Definition failing_stub : CurrencyRatesFetcher :=
  {| fetch_rates := fun _ => (Raise (ClientError ClientConnectionError), []);
     eager := fun _ => 0%nat |}.

(** A network on which every request raises a transport error. *)
Definition dead_net (date : string) : exchange :=
  GetRaises (ClientError ClientConnectionError).

(** The entry passes the test of line 32. *)
Definition keeps (rate : value) : bool :=
  match py_get rate "currency" PyNone with
  | Ok (PyStr k) => existsb (String.eqb k) currencies
  | _ => false
  end.




(** An exchange that [fetch_rates] gets through without raising: a
    transport error, an error status, a content type other than JSON, or
    JSON of the expected shape. *)
Definition benign (x : exchange) : Prop :=
  match x with
  | GetRaises e => exists ce, e = ClientError ce
  | Response status ctype b =>
      400 <= status \/ ctype = false \/
      exists data, b = Parsed data /\ expected_shape data = true
  end.

(** [int] on the arguments of the samples. *)
Definition sample_int (s : string) : option Z :=
  if String.eqb s "3" then Some 3
  else if String.eqb s "11" then Some 11
  else None.

(** A response with a number among the entries. *)
Definition spoiled : value :=
  PyDict [("exchangeRate",
           PyList [PyDict [("currency", PyStr "EUR"); ("saleRate", PyInt 42)];
                   PyInt 7])].

Definition spoiled_net (date : string) : exchange :=
  if String.eqb date "29.02.2024" then Response 200 true (Parsed spoiled)
  else Response 200 true (Parsed eur_only).

(** A clock that is set forward by four days between its first and its
    second reading, as when the system time is stepped. *)
Definition stepped_clock (k : nat) : datetime :=
  match k with
  | O => {| year := 2024; month := 3; day := 1;
            hour := 23; minute := 50; second := 0; microsecond := 0 |}
  | S _ => {| year := 2024; month := 3; day := 5;
              hour := 0; minute := 10; second := 0; microsecond := 0 |}
  end.

(** A provider with the same EUR rate for every date. *)
Definition always_net (date : string) : exchange := Response 200 true (Parsed eur_only).

Definition eur_rates : Rates := [("EUR", {| sale := PyInt 42; purchase := PyNone |})].

(** The rates of the samples are ASCII text and can be printed. *)
Definition sample_encodable (rates : list DailyRates) : bool := true.

(** * Properties *)

(** ** Dicts *)

Section DictFacts.
Context {V : Type}.
Implicit Types (d : list (string * V)) (k : string) (v : V).

Lemma dict_get_set_same k v d : dict_get k (dict_set k v d) = Some v.
Proof.
  induction d as [|[k' v'] d IH]; simpl.
  - now rewrite String.eqb_refl.
  - destruct (String.eqb k k') eqn:E; simpl; rewrite E; auto.
Qed.

Lemma dict_get_set_other k k' v d :
  k <> k' -> dict_get k' (dict_set k v d) = dict_get k' d.
Proof.
  intros Hne. induction d as [|[k0 v0] d IH]; simpl.
  - destruct (String.eqb k' k) eqn:E; auto.
    apply String.eqb_eq in E. congruence.
  - destruct (String.eqb k k0) eqn:E; simpl.
    + apply String.eqb_eq in E. subst k0.
      destruct (String.eqb k' k) eqn:E'; auto.
      apply String.eqb_eq in E'. congruence.
    + now rewrite IH.
Qed.

Lemma dict_keys_set k k' v d :
  In k' (dict_keys (dict_set k v d)) <-> k' = k \/ In k' (dict_keys d).
Proof.
  unfold dict_keys. induction d as [|[k0 v0] d IH]; simpl.
  - intuition.
  - destruct (String.eqb k k0) eqn:E; simpl.
    + apply String.eqb_eq in E. subst k0. intuition.
    + rewrite IH. intuition.
Qed.

Lemma truthy_keys d k : In k (dict_keys d) -> truthy d = true.
Proof. destruct d; simpl; intuition. Qed.
End DictFacts.

Lemma in_currencies k : existsb (String.eqb k) currencies = true <-> k = "EUR" \/ k = "USD".
Proof.
  unfold currencies. simpl. rewrite !orb_true_iff, !String.eqb_eq.
  intuition discriminate.
Qed.

(** ** The parser *)

Lemma parse_response_unfold data date :
  _parse_response data date =
  (items <- exchangeRate data ;;
   rates <- parse_entries [] items ;;
   Ok (if truthy rates then [(date, rates)] else [])).
Proof.
  unfold _parse_response, exchangeRate.
  destruct (py_get data "exchangeRate" (PyList [])); reflexivity.
Qed.

(** One turn of the loop, by cases on the entry. *)
Lemma parse_entry_cases rates rate rates' :
  parse_entry rates rate = Ok rates' ->
  exists fields, rate = PyDict fields /\
    ((exists k, quotes k rate /\ (k = "EUR" \/ k = "USD") /\
                rates' = dict_set k (record_of fields) rates)
     \/ ((forall k, quotes k rate -> ~ (k = "EUR" \/ k = "USD")) /\ rates' = rates)).
Proof.
  unfold quotes. intros H.
  destruct rate as [| | | | | |fields]; try (simpl in H; discriminate H).
  exists fields. split; [reflexivity|].
  unfold parse_entry in H. unfold py_get in *. cbn [bind] in H.
  destruct (match dict_get "currency" fields with Some v => v | None => PyNone end)
    as [| | | |k0| |];
    try (right; split; [intros k Hk; discriminate Hk | congruence]).
  destruct (existsb (String.eqb k0) currencies) eqn:Ek.
  - left. exists k0. apply in_currencies in Ek.
    inversion H; subst. auto.
  - right. split; [|congruence].
    intros k Hk Hin. inversion Hk; subst.
    apply in_currencies in Hin. congruence.
Qed.

Lemma parse_entry_kept rates fields k :
  dict_get "currency" fields = Some (PyStr k) -> k = "EUR" \/ k = "USD" ->
  parse_entry rates (PyDict fields) = Ok (dict_set k (record_of fields) rates).
Proof.
  intros Hc Hk. apply in_currencies in Hk.
  unfold parse_entry, py_get, record_of, field. rewrite Hc. cbn [bind].
  now rewrite Hk.
Qed.

(** The keys after the loop: those before it, and the codes EUR and USD
    that some entry carries. *)
Lemma parse_entries_keys items : forall acc rates,
  parse_entries acc items = Ok rates ->
  forall k, In k (dict_keys rates) <->
            In k (dict_keys acc) \/
            ((k = "EUR" \/ k = "USD") /\ exists rate, In rate items /\ quotes k rate).
Proof.
  induction items as [|rate items IH]; simpl; intros acc rates H k.
  - inversion H; subst. split; [auto|]. intros [?|[_ [r [[] _]]]]; auto.
  - destruct (parse_entry acc rate) as [acc'|] eqn:E; simpl in H; [|discriminate].
    rewrite (IH _ _ H k).
    destruct (parse_entry_cases _ _ _ E) as [fields [-> [[k0 [Hq [Hk0 ->]]]|[Hno ->]]]].
    + rewrite dict_keys_set. split.
      * intros [[->|?]|[? [r [? ?]]]]; eauto 8.
      * intros [?|[? [r [[<-|?] Hr]]]]; eauto 8.
        left. left. unfold quotes in *. congruence.
    + split.
      * intros [?|[? [r [? ?]]]]; eauto 8.
      * intros [?|[Hk [r [[<-|?] Hr]]]]; eauto 8.
        exfalso. eapply Hno; eauto.
Qed.

(** The last entry for a currency decides its record. *)
Lemma parse_entries_last k fields post : forall pre acc rates,
  dict_get "currency" fields = Some (PyStr k) -> k = "EUR" \/ k = "USD" ->
  (forall rate, In rate post -> ~ quotes k rate) ->
  parse_entries acc (pre ++ PyDict fields :: post) = Ok rates ->
  dict_get k rates = Some (record_of fields).
Proof.
  intros pre acc rates Hc Hk Hpost.
  revert acc. induction pre as [|r pre IH]; simpl; intros acc H.
  - rewrite (parse_entry_kept _ _ _ Hc Hk) in H. simpl in H.
    remember (dict_set k (record_of fields) acc) as acc' eqn:Eacc.
    assert (Hget : dict_get k acc' = Some (record_of fields))
      by (subst; apply dict_get_set_same).
    clear Eacc. revert acc' Hget H.
    induction post as [|r post IHp]; simpl; intros acc' Hget H.
    + inversion H; subst; auto.
    + destruct (parse_entry acc' r) as [acc''|] eqn:E; simpl in H; [|discriminate].
      apply IHp with (acc' := acc''); auto.
      * intros rate Hin. apply Hpost. now right.
      * destruct (parse_entry_cases _ _ _ E) as [f [-> [[k0 [Hq [Hk0 ->]]]|[_ ->]]]]; auto.
        rewrite dict_get_set_other; auto.
        intros ->. apply (Hpost (PyDict f)); simpl; auto.
  - destruct (parse_entry acc r) as [acc'|] eqn:E; simpl in H; [|discriminate].
    eauto.
Qed.

Lemma parse_response_last data date k pre fields post daily :
  exchangeRate data = Ok (pre ++ PyDict fields :: post) ->
  dict_get "currency" fields = Some (PyStr k) -> k = "EUR" \/ k = "USD" ->
  (forall rate, In rate post -> ~ quotes k rate) ->
  _parse_response data date = Ok daily ->
  exists rates, daily = [(date, rates)] /\ dict_get k rates = Some (record_of fields).
Proof.
  intros Hx Hc Hk Hpost H. rewrite parse_response_unfold, Hx in H. simpl in H.
  destruct (parse_entries [] (pre ++ PyDict fields :: post)) as [rates|] eqn:E;
    simpl in H; [|discriminate].
  pose proof (parse_entries_last _ _ _ _ _ _ Hc Hk Hpost E) as Hget.
  exists rates. destruct rates; simpl in *; [discriminate|].
  inversion H; auto.
Qed.

(** An array of objects is parsed to the end. *)
Lemma parse_entry_object rates fields : exists rates', parse_entry rates (PyDict fields) = Ok rates'.
Proof.
  unfold parse_entry, py_get. cbn [bind].
  destruct (match dict_get "currency" fields with Some v => v | None => PyNone end);
    eauto.
  destruct (existsb (String.eqb s) currencies); eauto.
Qed.

Lemma parse_entries_objects items : forall acc,
  Forall is_object items -> exists rates, parse_entries acc items = Ok rates.
Proof.
  induction items as [|r items IH]; simpl; intros acc H; eauto.
  inversion H as [|? ? [fields ->] Hrest]; subst.
  destruct (parse_entry_object acc fields) as [acc' ->]. simpl. auto.
Qed.

Lemma parse_response_objects data date items :
  exchangeRate data = Ok items -> Forall is_object items ->
  exists daily, _parse_response data date = Ok daily.
Proof.
  intros Hx Hall. rewrite parse_response_unfold, Hx. simpl.
  destruct (parse_entries_objects items [] Hall) as [rates ->]. simpl. eauto.
Qed.

Lemma dict_get_key {V : Type} k (d : list (string * V)) :
  In k (dict_keys d) -> exists v, dict_get k d = Some v.
Proof.
  unfold dict_keys. induction d as [|[k' v'] d IH]; simpl; [intros []|].
  intros [->|H].
  - rewrite String.eqb_refl. eauto.
  - destruct (String.eqb k k'); eauto.
Qed.

(** A record of the result is the record built from an entry that carries
    its currency, unless it was there before the loop. *)
Lemma parse_entries_records items : forall acc rates,
  parse_entries acc items = Ok rates ->
  forall k r, dict_get k rates = Some r ->
    dict_get k acc = Some r \/
    exists fields, In (PyDict fields) items /\ quotes k (PyDict fields) /\
                   r = record_of fields.
Proof.
  induction items as [|rate items IH]; simpl; intros acc rates H k r Hget.
  - inversion H; subst. now left.
  - destruct (parse_entry acc rate) as [acc'|] eqn:E; simpl in H; [|discriminate].
    destruct (IH _ _ H k r Hget) as [Hacc'|[fields [Hin Hrest]]].
    + destruct (parse_entry_cases _ _ _ E) as [fields [-> [[k0 [Hq [Hk0 ->]]]|[_ ->]]]];
        [|now left].
      destruct (String.eqb k0 k) eqn:Ek.
      * apply String.eqb_eq in Ek. subst k0.
        rewrite dict_get_set_same in Hacc'. inversion Hacc'; subst.
        right. exists fields. auto.
      * apply String.eqb_neq in Ek.
        rewrite dict_get_set_other in Hacc' by assumption. now left.
    + right. exists fields. tauto.
Qed.

(** C5. The parser keeps exactly the entries whose [currency] is the
    string EUR or USD.  Whatever [_parse_response] returns is keyed by the
    requested date and holds only the currency codes EUR and USD; a code
    is a key of the result exactly when it is EUR or USD and some entry of
    the response array carries it as its [currency] field; and the record
    under a key is the record built from the [saleRate] and
    [purchaseRate] of an entry that carries this code.  Entries with
    another code, with a [currency] that is no string, or with none, leave
    no trace.  The parser returns whenever the entries are objects. *)
Theorem parse_response_keeps_EUR_USD data date :
  (forall daily, _parse_response data date = Ok daily ->
     exists items, exchangeRate data = Ok items /\
       (forall d rates, In (d, rates) daily ->
          d = date /\ forall k, In k (dict_keys rates) -> k = "EUR" \/ k = "USD") /\
       (forall k, (exists rates, In (date, rates) daily /\ In k (dict_keys rates)) <->
                  ((k = "EUR" \/ k = "USD") /\
                   exists rate, In rate items /\ quotes k rate)) /\
       (forall rates k, In (date, rates) daily -> In k (dict_keys rates) ->
          exists fields, In (PyDict fields) items /\ quotes k (PyDict fields) /\
                         dict_get k rates = Some (record_of fields))) /\
  (forall items, exchangeRate data = Ok items -> Forall is_object items ->
     exists daily, _parse_response data date = Ok daily).
Proof.
  split; [|intros items Hx Hall; now apply (parse_response_objects data date items)].
  rewrite parse_response_unfold. intros daily H.
  destruct (exchangeRate data) as [items|]; simpl in H; [|discriminate].
  exists items. split; [reflexivity|].
  destruct (parse_entries [] items) as [rates|] eqn:E; simpl in H; [|discriminate].
  pose proof (parse_entries_keys _ _ _ E) as Hkeys. simpl in Hkeys.
  destruct (truthy rates) eqn:Et; inversion H; subst; clear H.
  - split; [|split].
    + intros d r [Heq|[]]. inversion Heq; subst. split; auto.
      intros k Hk. apply Hkeys in Hk. tauto.
    + intros k. split.
      * intros [r [[Heq|[]] Hk]]. inversion Heq; subst.
        apply Hkeys in Hk. tauto.
      * intros Hk. exists rates. split; [now left|]. apply Hkeys. auto.
    + intros r k [Heq|[]] Hk. inversion Heq; subst r.
      destruct (dict_get_key k rates Hk) as [rec Hrec].
      destruct (parse_entries_records _ _ _ E k rec Hrec) as [Hnil|[fields [Hin [Hq ->]]]].
      * discriminate.
      * exists fields. auto.
  - split; [|split].
    + intros d r [].
    + intros k. split.
      * intros [r [[] _]].
      * intros Hk. exfalso.
        assert (Hin : In k (dict_keys rates)) by (apply Hkeys; auto).
        apply truthy_keys in Hin. congruence.
    + intros r k [].
Qed.

Lemma parse_response_keeps_EUR_USD_witness :
  (exists items, exchangeRate sample_response = Ok items /\
     (forall d rates,
        In (d, rates) [("01.03.2024", [("EUR", {| sale := PyNone; purchase := PyInt 40 |})])] ->
        d = "01.03.2024" /\ forall k, In k (dict_keys rates) -> k = "EUR" \/ k = "USD") /\
     (forall k,
        (exists rates,
           In ("01.03.2024", rates)
              [("01.03.2024", [("EUR", {| sale := PyNone; purchase := PyInt 40 |})])] /\
           In k (dict_keys rates)) <->
        ((k = "EUR" \/ k = "USD") /\ exists rate, In rate items /\ quotes k rate)) /\
     (forall rates k,
        In ("01.03.2024", rates)
           [("01.03.2024", [("EUR", {| sale := PyNone; purchase := PyInt 40 |})])] ->
        In k (dict_keys rates) ->
        exists fields, In (PyDict fields) items /\ quotes k (PyDict fields) /\
                       dict_get k rates = Some (record_of fields))) /\
  (exists daily, _parse_response sample_response "01.03.2024" = Ok daily).
Proof.
  destruct (parse_response_keeps_EUR_USD sample_response "01.03.2024") as [H1 H2].
  split.
  - apply H1. reflexivity.
  - apply (H2 [PyDict [("currency", PyStr "GBP"); ("saleRate", PyFloat 4632355532558365491)];
               PyDict [("baseCurrency", PyStr "UAH")];
               PyDict [("currency", PyStr "EUR"); ("saleRate", PyInt 42);
                       ("purchaseRate", PyInt 41)];
               PyDict [("currency", PyStr "EUR"); ("purchaseRate", PyInt 40)]]).
    + reflexivity.
    + repeat constructor; eexists; reflexivity.
Defined.

(** C10. When the response array has two entries for one currency (EUR or
    USD), the record of the result comes from the later one: the last
    entry for a currency decides, whatever stood before it. *)
Theorem later_entry_overwrites data date k pre earlier mid later post :
  exchangeRate data = Ok (pre ++ PyDict earlier :: mid ++ PyDict later :: post) ->
  k = "EUR" \/ k = "USD" ->
  dict_get "currency" earlier = Some (PyStr k) ->
  dict_get "currency" later = Some (PyStr k) ->
  (forall rate, In rate post -> ~ quotes k rate) ->
  (forall daily, _parse_response data date = Ok daily ->
     exists rates, daily = [(date, rates)] /\ dict_get k rates = Some (record_of later)) /\
  (Forall is_object (pre ++ mid ++ post) -> exists daily, _parse_response data date = Ok daily).
Proof.
  intros Hx Hk _ Hlater Hpost. split.
  - intros daily H.
    apply (parse_response_last data date k (pre ++ PyDict earlier :: mid) later post);
      auto.
    now rewrite <- app_assoc.
  - intros Hall. apply (parse_response_objects data date _ Hx).
    rewrite !Forall_app in *. destruct Hall as [Hpre [Hmid Hp]].
    split; [assumption|].
    constructor; [now exists earlier|].
    apply Forall_app. split; [assumption|].
    constructor; [now exists later|assumption].
Qed.

Lemma later_entry_overwrites_witness :
  (forall daily, _parse_response sample_response "01.03.2024" = Ok daily ->
     exists rates, daily = [("01.03.2024", rates)] /\
       dict_get "EUR" rates = Some {| sale := PyNone; purchase := PyInt 40 |}) /\
  (Forall is_object
     ([PyDict [("currency", PyStr "GBP"); ("saleRate", PyFloat 4632355532558365491)];
       PyDict [("baseCurrency", PyStr "UAH")]] ++ [] ++ []) ->
   exists daily, _parse_response sample_response "01.03.2024" = Ok daily).
Proof.
  apply (later_entry_overwrites sample_response "01.03.2024" "EUR"
           [PyDict [("currency", PyStr "GBP"); ("saleRate", PyFloat 4632355532558365491)];
            PyDict [("baseCurrency", PyStr "UAH")]]
           [("currency", PyStr "EUR"); ("saleRate", PyInt 42); ("purchaseRate", PyInt 41)]
           []
           [("currency", PyStr "EUR"); ("purchaseRate", PyInt 40)]
           []).
  - reflexivity.
  - left; reflexivity.
  - reflexivity.
  - reflexivity.
  - intros rate [].
Defined.

(** C8. A kept entry that has no [saleRate] field gives a record whose
    [sale] is [None], and likewise for [purchaseRate] and [purchase]: the
    record holds the fields exactly as [rate.get] reads them, and no number
    is put in the place of a missing one. *)
Theorem absent_rate_stays_None data date k pre fields post daily :
  exchangeRate data = Ok (pre ++ PyDict fields :: post) ->
  k = "EUR" \/ k = "USD" ->
  dict_get "currency" fields = Some (PyStr k) ->
  (forall rate, In rate post -> ~ quotes k rate) ->
  _parse_response data date = Ok daily ->
  exists rates r, daily = [(date, rates)] /\ dict_get k rates = Some r /\
    (dict_get "saleRate" fields = None -> sale r = PyNone) /\
    (dict_get "purchaseRate" fields = None -> purchase r = PyNone) /\
    (forall v, dict_get "saleRate" fields = Some v -> sale r = v) /\
    (forall v, dict_get "purchaseRate" fields = Some v -> purchase r = v).
Proof.
  intros Hx Hk Hc Hpost H.
  destruct (parse_response_last data date k pre fields post daily Hx Hc Hk Hpost H)
    as [rates [-> Hget]].
  exists rates, (record_of fields). repeat split; auto;
    unfold record_of, field; simpl; intros; now rewrite H0.
Qed.

Lemma absent_rate_stays_None_witness :
  exists rates r,
    [("01.03.2024", [("EUR", {| sale := PyNone; purchase := PyInt 40 |})])]
      = [("01.03.2024", rates)] /\
    dict_get "EUR" rates = Some r /\
    (dict_get "saleRate" [("currency", PyStr "EUR"); ("purchaseRate", PyInt 40)] = None ->
     sale r = PyNone) /\
    (dict_get "purchaseRate" [("currency", PyStr "EUR"); ("purchaseRate", PyInt 40)] = None ->
     purchase r = PyNone) /\
    (forall v,
       dict_get "saleRate" [("currency", PyStr "EUR"); ("purchaseRate", PyInt 40)] = Some v ->
       sale r = v) /\
    (forall v,
       dict_get "purchaseRate" [("currency", PyStr "EUR"); ("purchaseRate", PyInt 40)] = Some v ->
       purchase r = v).
Proof.
  apply (absent_rate_stays_None sample_response "01.03.2024" "EUR"
           [PyDict [("currency", PyStr "GBP"); ("saleRate", PyFloat 4632355532558365491)];
            PyDict [("baseCurrency", PyStr "UAH")];
            PyDict [("currency", PyStr "EUR"); ("saleRate", PyInt 42);
                    ("purchaseRate", PyInt 41)]]
           [("currency", PyStr "EUR"); ("purchaseRate", PyInt 40)]
           []).
  - reflexivity.
  - left; reflexivity.
  - reflexivity.
  - intros rate [].
  - reflexivity.
Defined.

(** ** Sequencing and gather *)

Lemma io_bind_ok {A B : Type} (m : io A) (k : A -> io B) b t :
  io_bind m k = (Ok b, t) ->
  exists a t1 t2, m = (Ok a, t1) /\ k a = (Ok b, t2) /\ t = t1 ++ t2.
Proof.
  unfold io_bind. destruct m as [[a|e] t1]; [|discriminate].
  destruct (k a) as [r t2] eqn:E. intros H. inversion H; subst.
  exists a, t1, t2. auto.
Qed.

Lemma for_each_ok {A B : Type} (f : A -> io B) l : forall bs t,
  for_each f l = (Ok bs, t) ->
  Forall2 (fun a b => fst (f a) = Ok b) l bs /\ t = List.concat (map (fun a => snd (f a)) l).
Proof.
  induction l as [|a l IH]; simpl; intros bs t H.
  - inversion H; subst. split; constructor.
  - apply io_bind_ok in H. destruct H as [b [t1 [t2 [Ha [H ->]]]]].
    apply io_bind_ok in H. destruct H as [bs' [t3 [t4 [Hl [H ->]]]]].
    inversion H; subst. destruct (IH _ _ Hl) as [IH1 ->].
    rewrite Ha. simpl. rewrite app_nil_r. split; [|reflexivity].
    constructor; [now rewrite Ha | assumption].
Qed.

Lemma for_each_all {A B : Type} (f : A -> io B) (g : A -> B) l :
  (forall a, In a l -> fst (f a) = Ok (g a)) ->
  for_each f l = (Ok (map g l), List.concat (map (fun a => snd (f a)) l)).
Proof.
  induction l as [|a l IH]; simpl; intros H; [reflexivity|].
  rewrite IH by auto.
  pose proof (H a (or_introl eq_refl)) as Ha.
  destruct (f a) as [r t]. simpl in *. subst r. simpl.
  now rewrite app_nil_r.
Qed.

Lemma collect_ok {A : Type} (outs : list (outcome A)) : forall l,
  collect outs = Ok l <-> outs = map Ok l.
Proof.
  induction outs as [|[a|e] outs IH]; simpl; intros l.
  - split; intros H.
    + now inversion H.
    + destruct l; [reflexivity|discriminate].
  - destruct (collect outs) as [l'|e'] eqn:E; simpl.
    + split; intros H.
      * inversion H; subst. simpl. f_equal. now apply IH.
      * destruct l as [|a' l]; [discriminate|]. inversion H; subst.
        f_equal. f_equal. assert (Ok l' = Ok l) as Heq by (now apply IH).
        now inversion Heq.
    + split; intros H; [discriminate|].
      destruct l as [|a' l]; [discriminate|]. inversion H; subst.
      assert (@Raise (list A) e' = Ok l) by (now apply IH). discriminate.
  - split; intros H; [discriminate|]. destruct l; discriminate.
Qed.

Lemma collect_raise {A : Type} (outs : list (outcome A)) e :
  In (Raise e) outs -> exists e', collect outs = Raise e'.
Proof.
  induction outs as [|[a|e0] outs IH]; simpl; intros H.
  - contradiction.
  - destruct H as [H|H]; [discriminate|].
    destruct (IH H) as [e' ->]. simpl. eauto.
  - eauto.
Qed.

(** gather returns exactly when every task did, and then in task order,
    whatever the completion order. *)
Lemma gather_ok {A : Type} (completion : list nat) (tasks : list (task A)) l :
  fst (gather completion tasks) = Ok l <-> map result tasks = map Ok l.
Proof.
  unfold gather. simpl. split.
  - intros H.
    destruct (collect (map result tasks)) as [l'|e] eqn:E; [|discriminate].
    apply collect_ok in E. congruence.
  - intros H. apply collect_ok in H. now rewrite H.
Qed.

Lemma gather_raise {A : Type} (completion : list nat) (tasks : list (task A)) e :
  In (Raise e) (map result tasks) -> exists e', fst (gather completion tasks) = Raise e'.
Proof.
  intros H. apply collect_raise in H. destruct H as [e0 H].
  unfold gather. simpl. rewrite H. eauto.
Qed.

(** ** The service *)

Section Service.
Context {fetcher : CurrencyRatesFetcher}.
Variable clock : nat -> datetime.

Lemma in_bounds days :
  1 <= days <= 10 -> (days <? 1) || (days >? 10) = false.
Proof. intros H. apply orb_false_iff. split; lia. Qed.

Lemma date_at_events l :
  List.concat (map (fun i => snd (date_at clock i)) l) = repeat Now (List.length l).
Proof. induction l; simpl; f_equal; auto. Qed.

Lemma results_of_calls dates :
  map result (map call dates) = map (fun d => fst (fetch_rates d)) dates.
Proof. rewrite map_map. reflexivity. Qed.

(** The shape of every run that returns. *)
Lemma get_rates_for_days_ok completion days res t :
  1 <= days <= 10 ->
  get_rates_for_days clock completion days = (Ok res, t) ->
  exists dates results,
    date_range clock days = (Ok dates, repeat Now (Z.to_nat days)) /\
    Forall2 (fun i d => fst (date_at clock i) = Ok d) (seq 0 (Z.to_nat days)) dates /\
    map (fun d => fst (fetch_rates d)) dates = map Ok results /\
    res = filter truthy results /\
    t = repeat Now (Z.to_nat days) ++ snd (gather completion (map call dates)).
Proof.
  intros Hd H. unfold get_rates_for_days in H. rewrite (in_bounds _ Hd) in H.
  apply io_bind_ok in H. destruct H as [dates [t1 [t2 [Hdates [H ->]]]]].
  apply io_bind_ok in H. destruct H as [results [t3 [t4 [Hg [H ->]]]]].
  inversion H; subst. clear H.
  assert (Ho : map result (map call dates) = map Ok results).
  { apply (gather_ok completion). now rewrite Hg. }
  rewrite results_of_calls in Ho. rewrite app_nil_r.
  unfold date_range in *. pose proof (for_each_ok _ _ _ _ Hdates) as [HF Ht].
  rewrite date_at_events, length_seq in Ht.
  subst t1. exists dates, results. rewrite Hg. auto.
Qed.

(** ... and the run that such parts make, under any completion order. *)
Lemma get_rates_for_days_run completion days dates results t1 :
  1 <= days <= 10 ->
  date_range clock days = (Ok dates, t1) ->
  map (fun d => fst (fetch_rates d)) dates = map Ok results ->
  get_rates_for_days clock completion days =
    (Ok (filter truthy results), t1 ++ snd (gather completion (map call dates))).
Proof.
  intros Hd Hdates Ho. unfold get_rates_for_days.
  rewrite (in_bounds _ Hd), Hdates. unfold io_bind.
  assert (Hg : fst (gather completion (map call dates)) = Ok results).
  { apply gather_ok. now rewrite results_of_calls. }
  destruct (gather completion (map call dates)) as [o t2]. simpl in Hg. subst o.
  unfold ret. simpl. now rewrite app_nil_r.
Qed.

(** One raising task makes the whole call raise. *)
Lemma get_rates_for_days_raise completion days dates t1 d e :
  1 <= days <= 10 ->
  date_range clock days = (Ok dates, t1) ->
  In d dates -> fst (fetch_rates d) = Raise e ->
  exists e', fst (get_rates_for_days clock completion days) = Raise e'.
Proof.
  intros Hd Hdates Hin He. unfold get_rates_for_days.
  rewrite (in_bounds _ Hd), Hdates. unfold io_bind.
  destruct (gather_raise completion (map call dates) e) as [e' Hg].
  { rewrite results_of_calls, <- He. apply (in_map (fun x => fst (fetch_rates x))), Hin. }
  destruct (gather completion (map call dates)) as [[l|e0] t2]; simpl in *.
  - discriminate.
  - eauto.
Qed.
End Service.

(** Filtering a list that runs along increasing offsets leaves increasing
    offsets. *)
Lemma kept_offsets {B : Type} (R : nat -> B -> Prop) (p : B -> bool) l rs :
  StronglySorted lt l -> Forall2 R l rs ->
  exists l', StronglySorted lt l' /\ incl l' l /\ Forall2 R l' (filter p rs).
Proof.
  intros Hs HF. induction HF as [|a b l rs Hab HF IH]; simpl.
  - exists []. repeat split; auto. apply incl_refl.
  - inversion Hs as [|? ? Hs' Hlt]; subst.
    destruct (IH Hs') as [l' [Hl' [Hincl HF']]].
    destruct (p b).
    + exists (a :: l'). repeat split.
      * constructor; auto. rewrite Forall_forall in *. auto.
      * intros x [->|Hx]; [now left | right; auto].
      * constructor; auto.
    + exists l'. repeat split; auto. intros x Hx. right. auto.
Qed.

Lemma seq_sorted n : forall a, StronglySorted lt (seq a n).
Proof.
  induction n as [|n IH]; simpl; intros a; constructor; auto.
  apply Forall_forall. intros x Hx. apply in_seq in Hx. lia.
Qed.

Lemma Forall2_map_eq {A B : Type} (f : A -> outcome B) l rs :
  map f l = map Ok rs -> Forall2 (fun a r => f a = Ok r) l rs.
Proof.
  revert rs. induction l as [|a l IH]; intros [|r rs] H; try discriminate; constructor.
  - now inversion H.
  - apply IH. now inversion H.
Qed.

Lemma Forall2_compose {A B C : Type} (R : A -> B -> Prop) (S : B -> C -> Prop) l :
  forall m n, Forall2 R l m -> Forall2 S m n ->
              Forall2 (fun a c => exists b, R a b /\ S b c) l n.
Proof.
  induction l as [|a l IH]; intros m n H1 H2; inversion H1; subst;
    inversion H2; subst; constructor; eauto.
Qed.

Lemma filter_length_le {A : Type} (p : A -> bool) l :
  (List.length (filter p l) <= List.length l)%nat.
Proof. induction l as [|a l IH]; simpl; [lia|]. destruct (p a); simpl; lia. Qed.

(** ** The calendar *)

Ltac month_cases m :=
  assert (m = 1 \/ m = 2 \/ m = 3 \/ m = 4 \/ m = 5 \/ m = 6 \/
          m = 7 \/ m = 8 \/ m = 9 \/ m = 10 \/ m = 11 \/ m = 12) as Hcases by lia;
  repeat (destruct Hcases as [Hcases|Hcases]); subst m.

Lemma is_leap_spec y : is_leap y = true <-> (y mod 4 = 0 /\ (y mod 100 <> 0 \/ y mod 400 = 0)).
Proof.
  unfold is_leap. rewrite andb_true_iff, orb_true_iff, negb_true_iff, !Z.eqb_eq, Z.eqb_neq. tauto.
Qed.

Lemma ymd2ord_bounds y m d :
  valid_ymd y m d ->
  1 <= ymd2ord y m d <= MAXORDINAL /\ (2 <= y -> 366 <= ymd2ord y m d).
Proof.
  intros (Hy & Hm & Hd).
  unfold ymd2ord, days_before_year, days_before_month, days_in_month, MAXORDINAL in *.
  destruct (is_leap y) eqn:El.
  - apply is_leap_spec in El. month_cases m; simpl in *; Z.div_mod_to_equations; lia.
  - month_cases m; simpl in *; Z.div_mod_to_equations; lia.
Qed.

(** The year that [ord2ymd] computes, from the four quotients. *)
Lemma leap_agree n400 n100 n4 n1 :
  0 <= n400 -> 0 <= n100 <= 3 -> 0 <= n4 <= 24 -> 0 <= n1 <= 3 ->
  is_leap (n400 * 400 + 1 + n100 * 100 + n4 * 4 + n1) =
  (n1 =? 3) && (negb (n4 =? 24) || (n100 =? 3)).
Proof.
  intros H400 H100 H4 H1.
  destruct (is_leap _) eqn:El.
  - apply is_leap_spec in El. symmetry.
    rewrite andb_true_iff, orb_true_iff, negb_true_iff, !Z.eqb_eq, Z.eqb_neq.
    Z.div_mod_to_equations. lia.
  - symmetry. apply not_true_iff_false. intros Hc. apply not_true_iff_false in El.
    apply El. apply is_leap_spec.
    rewrite andb_true_iff, orb_true_iff, negb_true_iff, !Z.eqb_eq, Z.eqb_neq in Hc.
    Z.div_mod_to_equations. lia.
Qed.

Lemma days_before_year_split n400 n100 n4 n1 :
  0 <= n400 -> 0 <= n100 <= 3 -> 0 <= n4 <= 24 -> 0 <= n1 <= 3 ->
  days_before_year (n400 * 400 + 1 + n100 * 100 + n4 * 4 + n1) =
  n400 * DI400Y + n100 * DI100Y + n4 * DI4Y + n1 * 365.
Proof.
  intros. unfold days_before_year, DI400Y, DI100Y, DI4Y.
  Z.div_mod_to_equations. lia.
Qed.

Lemma ord2ymd_spec n :
  1 <= n <= MAXORDINAL ->
  let '(y, m, d) := ord2ymd n in valid_ymd y m d /\ ymd2ord y m d = n.
Proof.
  intros Hn. unfold ord2ymd, MAXORDINAL in *.
  set (n0 := n - 1).
  set (n400 := n0 / DI400Y). set (r1 := n0 mod DI400Y).
  set (n100 := r1 / DI100Y). set (r2 := r1 mod DI100Y).
  set (n4 := r2 / DI4Y). set (r3 := r2 mod DI4Y).
  set (n1 := r3 / 365). set (r4 := r3 mod 365).
  assert (E1 : n0 = n400 * DI400Y + r1 /\ 0 <= r1 < DI400Y /\ 0 <= n400 <= 24)
    by (subst n400 r1 n0; unfold DI400Y; Z.div_mod_to_equations; lia).
  assert (E2 : r1 = n100 * DI100Y + r2 /\ 0 <= r2 < DI100Y /\ 0 <= n100 <= 4)
    by (subst n100 r2; unfold DI400Y, DI100Y in *; Z.div_mod_to_equations; lia).
  assert (E3 : r2 = n4 * DI4Y + r3 /\ 0 <= r3 < DI4Y /\ 0 <= n4 <= 24)
    by (subst n4 r3; unfold DI100Y, DI4Y in *; Z.div_mod_to_equations; lia).
  assert (E4 : r3 = n1 * 365 + r4 /\ 0 <= r4 < 365 /\ 0 <= n1 <= 4)
    by (subst n1 r4; unfold DI4Y in *; Z.div_mod_to_equations; lia).
  clearbody n400 r1 n100 r2 n4 r3 n1 r4.
  destruct E1 as (E1 & B1 & Q1), E2 as (E2 & B2 & Q2),
           E3 as (E3 & B3 & Q3), E4 as (E4 & B4 & Q4).
  unfold DI400Y, DI100Y, DI4Y in *.
  destruct ((n1 =? 4) || (n100 =? 4)) eqn:Eend.
  - (* the last day of a leap year *)
    apply orb_true_iff in Eend. rewrite !Z.eqb_eq in Eend.
    replace (n400 * 400 + 1 + n100 * 100 + n4 * 4 + n1 - 1)
      with (n400 * 400 + n100 * 100 + n4 * 4 + n1) by lia.
    assert (Hleap : is_leap (n400 * 400 + n100 * 100 + n4 * 4 + n1) = true).
    { apply is_leap_spec. Z.div_mod_to_equations. lia. }
    unfold valid_ymd, ymd2ord, days_in_month, days_before_month, days_before_year.
    rewrite Hleap. simpl. subst n0. Z.div_mod_to_equations. lia.
  - apply orb_false_iff in Eend. rewrite !Z.eqb_neq in Eend.
    assert (Q1' : 0 <= n1 <= 3) by lia. assert (Q2' : 0 <= n100 <= 3) by lia.
    pose proof (leap_agree n400 n100 n4 n1 (proj1 Q1) Q2' Q3 Q1') as Hleap.
    pose proof (days_before_year_split n400 n100 n4 n1 (proj1 Q1) Q2' Q3 Q1') as Hdby.
    unfold DI400Y, DI100Y, DI4Y in Hdby.
    set (y := n400 * 400 + 1 + n100 * 100 + n4 * 4 + n1) in *.
    set (leapyear := (n1 =? 3) && (negb (n4 =? 24) || (n100 =? 3))) in *.
    assert (Hr4 : leapyear = false -> r4 < 365) by lia.
    rewrite Z.shiftr_div_pow2 by lia. change (2 ^ 5) with 32.
    set (m := (r4 + 50) / 32).
    assert (Hm : 1 <= m <= 12) by (subst m; Z.div_mod_to_equations; lia).
    assert (Em : 32 * m <= r4 + 50 < 32 * m + 32) by (subst m; Z.div_mod_to_equations; lia).
    clearbody m.
    assert (Hy : 1 <= y <= 9999) by (subst y n0; lia).
    unfold valid_ymd, ymd2ord, days_in_month, days_before_month.
    clearbody y. 
    destruct leapyear; month_cases m; simpl;
      repeat match goal with
             | |- context [?a <? ?b] => destruct (Z.ltb_spec a b)
             end; simpl; rewrite ?Hleap; simpl; lia.
Qed.

Lemma sub_days_spec t i :
  valid_datetime t -> 0 <= i < toordinal t ->
  exists tm, sub_days t i = Ok tm /\ valid_datetime tm /\ toordinal tm = toordinal t - i.
Proof.
  intros Hv Hi. unfold sub_days.
  pose proof (ymd2ord_bounds _ _ _ Hv) as [Hb _]. fold (toordinal t) in Hb.
  assert (Ho : 1 <= toordinal t - i <= MAXORDINAL) by lia.
  replace ((0 <? toordinal t - i) && (toordinal t - i <=? MAXORDINAL)) with true
    by (symmetry; apply andb_true_iff; split; lia).
  pose proof (ord2ymd_spec _ Ho) as Hs.
  destruct (ord2ymd (toordinal t - i)) as [[y m] d]. destruct Hs as [Hvalid Hord].
  eexists. split; [reflexivity|]. split; assumption.
Qed.

(** ** The format *)

Lemma digit_inj a b : digit a = digit b -> a mod 10 = b mod 10.
Proof.
  unfold digit. intros H. apply (f_equal nat_of_ascii) in H.
  pose proof (Z.mod_pos_bound a 10 ltac:(lia)).
  pose proof (Z.mod_pos_bound b 10 ltac:(lia)).
  rewrite !nat_ascii_embedding in H by lia. lia.
Qed.

Lemma days_in_month_le y m : 1 <= m <= 12 -> days_in_month y m <= 31.
Proof.
  intros Hm. unfold days_in_month.
  destruct ((m =? 2) && is_leap y); [lia|]. month_cases m; simpl; lia.
Qed.

Lemma strftime_inj t t' :
  valid_datetime t -> valid_datetime t' -> strftime t = strftime t' ->
  year t = year t' /\ month t = month t' /\ day t = day t'.
Proof.
  intros (Hy & Hm & Hd) (Hy' & Hm' & Hd') H.
  pose proof (days_in_month_le (year t) _ Hm) as Bd.
  pose proof (days_in_month_le (year t') _ Hm') as Bd'.
  unfold strftime, year_text, pad4, pad2 in H.
  destruct (Z.ltb_spec (year t) 10); [|destruct (Z.ltb_spec (year t) 100);
    [|destruct (Z.ltb_spec (year t) 1000)]];
  (destruct (Z.ltb_spec (year t') 10); [|destruct (Z.ltb_spec (year t') 100);
    [|destruct (Z.ltb_spec (year t') 1000)]]);
  simpl in H; try discriminate H; injection H; intros;
  repeat match goal with
         | E : digit _ = digit _ |- _ => apply digit_inj in E
         end;
  repeat split; Z.div_mod_to_equations; lia.
Qed.

(** ** The date range *)

Lemma Forall2_map_r {A B : Type} (R : A -> B -> Prop) (g : A -> B) l :
  (forall a, In a l -> R a (g a)) -> Forall2 R l (map g l).
Proof.
  induction l as [|a l IH]; simpl; intros H; constructor; auto.
Qed.

Lemma Forall2_In_r {A B : Type} (R : A -> B -> Prop) l m b :
  Forall2 R l m -> In b m -> exists a, In a l /\ R a b.
Proof.
  induction 1 as [|a b' l m Hab HF IH]; simpl; [contradiction|].
  intros [->|Hin]; [eauto|]. destruct (IH Hin) as [a' [? ?]]. eauto.
Qed.

Lemma Forall2_impl_In {A B : Type} (R S : A -> B -> Prop) l m :
  Forall2 R l m -> (forall a b, In a l -> R a b -> S a b) -> Forall2 S l m.
Proof.
  induction 1 as [|a b l m Hab HF IH]; intros H; constructor.
  - apply H; simpl; auto.
  - apply IH. intros x y Hx. apply H. simpl; auto.
Qed.

Lemma Forall2_NoDup {A B : Type} (R : A -> B -> Prop) l m :
  Forall2 R l m -> NoDup l ->
  (forall a a' b, In a l -> In a' l -> R a b -> R a' b -> a = a') ->
  NoDup m.
Proof.
  induction 1 as [|a b l m Hab HF IH]; intros Hnd Hinj; constructor.
  - inversion Hnd as [|? ? Hnot _]; subst. intros Hin.
    destruct (Forall2_In_r _ _ _ _ HF Hin) as [a' [Ha' Hr]].
    assert (a = a') by (apply (Hinj a a' b); simpl; auto). subst. contradiction.
  - inversion Hnd; subst. apply IH; auto.
    intros x x' y Hx Hx'. apply Hinj; simpl; auto.
Qed.

Lemma date_at_in_range clock i :
  clock_in_range clock -> (i < 366)%nat ->
  exists tm, sub_days (clock i) (Z.of_nat i) = Ok tm /\ valid_datetime tm /\
             toordinal tm = toordinal (clock i) - Z.of_nat i.
Proof.
  intros Hc Hi. destruct (Hc i) as [Hv Hy].
  apply sub_days_spec; auto.
  pose proof (ymd2ord_bounds _ _ _ Hv) as [_ Hb]. unfold toordinal. lia.
Qed.

(** With a clock in range the comprehension of line 47 yields one date per
    offset and reads the clock once for each. *)
Lemma date_range_total clock days :
  1 <= days <= 10 -> clock_in_range clock ->
  exists dates,
    date_range clock days = (Ok dates, repeat Now (Z.to_nat days)) /\
    Forall2 (date_of_offset clock) (seq 0 (Z.to_nat days)) dates.
Proof.
  intros Hd Hc. unfold date_range.
  set (g := fun i => match sub_days (clock i) (Z.of_nat i) with
                     | Ok tm => strftime tm
                     | Raise _ => EmptyString
                     end).
  assert (Hg : forall i, In i (seq 0 (Z.to_nat days)) ->
                         fst (date_at clock i) = Ok (g i) /\ date_of_offset clock i (g i)).
  { intros i Hi. apply in_seq in Hi.
    destruct (date_at_in_range clock i Hc ltac:(lia)) as [tm [Hs [Hv Ho]]].
    unfold date_at, g, date_of_offset. simpl. rewrite Hs. simpl. split; eauto 6. }
  exists (map g (seq 0 (Z.to_nat days))). split.
  - rewrite (for_each_all _ g) by (intros; now apply Hg).
    now rewrite date_at_events, length_seq.
  - apply Forall2_map_r. intros; now apply Hg.
Qed.

(** X13. While the readings of the clock stay on one calendar day, the
    generated dates are [days] different days in a row going back from
    today: the date at offset [i] is the valid date whose ordinal is
    today's minus [i], and no date comes twice. *)
Lemma date_range_same_day clock days :
  1 <= days <= 10 -> clock_in_range clock -> same_day clock days ->
  exists dates,
    date_range clock days = (Ok dates, repeat Now (Z.to_nat days)) /\
    Z.of_nat (List.length dates) = days /\
    NoDup dates /\
    Forall2 (fun i d => exists tm, d = strftime tm /\ valid_datetime tm /\
                                   toordinal tm = toordinal (clock 0%nat) - Z.of_nat i)
            (seq 0 (Z.to_nat days)) dates.
Proof.
  intros Hd Hc Hs.
  destruct (date_range_total clock days Hd Hc) as [dates [Hrun HF]].
  assert (HF' : Forall2 (fun i d => exists tm, d = strftime tm /\ valid_datetime tm /\
                                   toordinal tm = toordinal (clock 0%nat) - Z.of_nat i)
                        (seq 0 (Z.to_nat days)) dates).
  { apply (Forall2_impl_In _ _ _ _ HF).
    intros i d Hi [tm [_ [Hv [Ho ->]]]]. apply in_seq in Hi.
    exists tm. rewrite <- (Hs i) by lia. auto. }
  exists dates. repeat split; auto.
  - apply Forall2_length in HF. rewrite length_seq in HF. lia.
  - apply (Forall2_NoDup _ _ _ HF' (seq_NoDup _ _)).
    intros i i' d _ _ [tm [-> [Hv Ho]]] [tm' [Heq [Hv' Ho']]].
    destruct (strftime_inj _ _ Hv Hv' Heq) as (Ey & Em & Ed).
    unfold toordinal in *. rewrite Ey, Em, Ed in Ho. lia.
Qed.

(** C4. The claim promises [days] different dates from one reading of the
    clock.  Line 47 reads the clock anew for every offset: when midnight
    falls between the first and the second reading, offset 0 and offset 1
    both give 31.12.2023, so the range for [days = 2] holds one date twice
    and misses 30.12.2023. *)
Theorem date_range_across_midnight :
  clock_in_range midnight_clock /\
  date_range midnight_clock 2 = (Ok ["31.12.2023"; "31.12.2023"], [Now; Now]) /\
  ~ NoDup ["31.12.2023"; "31.12.2023"].
Proof.
  split; [|split].
  - intros [|i]; unfold valid_datetime, valid_ymd; simpl; vm_compute;
      intuition discriminate.
  - reflexivity.
  - intros H. inversion H as [|? ? Hnot _]; subst. apply Hnot. now left.
Qed.

(** ** The claims about the service *)

Lemma steady_clock_in_range : clock_in_range steady_clock.
Proof.
  intros i. unfold steady_clock, valid_datetime, valid_ymd. simpl.
  vm_compute. intuition discriminate.
Qed.

Lemma sample_fetcher_returns d : exists r, fst (@fetch_rates sample_fetcher d) = Ok r.
Proof.
  simpl. unfold PrivatBank_fetch_rates, sample_net.
  destruct (String.eqb d "01.03.2024"); [simpl; eauto|].
  destruct (String.eqb d "29.02.2024"); simpl; eauto.
Qed.

(** With a clock in range and a fetcher that does not raise, the service
    returns. *)
Lemma get_rates_for_days_returns (fetcher : CurrencyRatesFetcher) clock completion days :
  1 <= days <= 10 -> clock_in_range clock ->
  (forall d, exists r, fst (fetch_rates d) = Ok r) ->
  exists res t, get_rates_for_days clock completion days = (Ok res, t).
Proof.
  intros Hd Hc Hf.
  destruct (date_range_total clock days Hd Hc) as [dates [Hrun _]].
  set (g := fun d => match fst (fetch_rates d) with Ok r => r | Raise _ => [] end).
  do 2 eexists.
  apply (get_rates_for_days_run clock completion days dates (map g dates) _ Hd Hrun).
  rewrite map_map. apply map_ext. intros d. unfold g.
  destruct (Hf d) as [r ->]. reflexivity.
Qed.

(** What the provider fetcher returns is empty or keyed by the date asked
    for. *)
Lemma PrivatBank_fetch_rates_keyed net date r t :
  PrivatBank_fetch_rates net date = (Ok r, t) ->
  r = [] \/ exists rates, r = [(date, rates)].
Proof.
  unfold PrivatBank_fetch_rates. intros H.
  destruct (request (net date) date) as [r'|e] eqn:E.
  - inversion H; subst. clear H. unfold request in E.
    destruct (net date) as [e|status ctype b]; [discriminate|].
    destruct (raise_for_status status); simpl in E; [|discriminate].
    destruct (json ctype b) as [data|]; simpl in E; [|discriminate].
    rewrite parse_response_unfold in E.
    destruct (exchangeRate data) as [items|]; simpl in E; [|discriminate].
    destruct (parse_entries [] items) as [rates|]; simpl in E; [|discriminate].
    destruct (truthy rates); inversion E; eauto.
  - destruct e; inversion H; auto.
Qed.


(** C1. A day count below 1 or above 10 makes [get_rates_for_days] raise
    [ValueError] with nothing done before: the event list is empty, so the
    clock was not read (no date range) and no fetch was started. *)
Theorem invalid_days_rejected (fetcher : CurrencyRatesFetcher) clock completion days :
  days < 1 \/ 10 < days ->
  get_rates_for_days clock completion days =
    (Raise (ValueError "Number of days must be between 1 and 10"), []).
Proof.
  intros H. unfold get_rates_for_days.
  assert (E : (days <? 1) || (days >? 10) = true) by (apply orb_true_iff; lia).
  now rewrite E.
Qed.

Lemma invalid_days_rejected_witness :
  @get_rates_for_days sample_fetcher steady_clock [] 0 =
    (Raise (ValueError "Number of days must be between 1 and 10"), []) /\
  @get_rates_for_days sample_fetcher steady_clock [] 11 =
    (Raise (ValueError "Number of days must be between 1 and 10"), []) /\
  @get_rates_for_days sample_fetcher steady_clock [] (-1) =
    (Raise (ValueError "Number of days must be between 1 and 10"), []).
Proof.
  split; [|split]; apply (invalid_days_rejected sample_fetcher); lia.
Defined.

(** C2. For a day count in 1..10 and any fetcher, the list that
    [get_rates_for_days] returns has at most [days] elements, none of them
    empty; each element is what the fetch of one generated date returned,
    and that return was not empty; and the list has as many elements as
    dates had a non-empty result: the empty results (failed fetch or no
    EUR/USD data) are all dropped and only they.  Such a list is returned
    whenever the clock is in range and the fetcher does not raise. *)
Theorem result_bounded_and_nonempty (fetcher : CurrencyRatesFetcher)
    clock completion days :
  1 <= days <= 10 ->
  (forall res t,
     get_rates_for_days clock completion days = (Ok res, t) ->
     Z.of_nat (List.length res) <= days /\
     ~ In [] res /\
     exists dates,
       fst (date_range clock days) = Ok dates /\
       Z.of_nat (List.length dates) = days /\
       (forall r, In r res ->
          exists d, In d dates /\ fst (fetch_rates d) = Ok r /\ truthy r = true) /\
       List.length res =
         List.length (filter (fun d => match fst (fetch_rates d) with
                                       | Ok r => truthy r
                                       | Raise _ => false
                                       end) dates)) /\
  (clock_in_range clock -> (forall d, exists r, fst (fetch_rates d) = Ok r) ->
   exists res t, get_rates_for_days clock completion days = (Ok res, t)).
Proof.
  intros Hd. split; [|now apply get_rates_for_days_returns].
  intros res t H.
  destruct (get_rates_for_days_ok clock completion days res t Hd H)
    as [dates [results [Hdates [Hseq [Ho [-> _]]]]]].
  assert (Hlen : List.length dates = Z.to_nat days).
  { apply Forall2_length in Hseq. now rewrite length_seq in Hseq. }
  assert (Hlen' : List.length results = List.length dates).
  { apply (f_equal (@List.length _)) in Ho. now rewrite !length_map in Ho. }
  pose proof (Forall2_map_eq _ _ _ Ho) as HF.
  split; [|split].
  - pose proof (filter_length_le truthy results). unfold DailyRates in *. lia.
  - intros Hin. apply filter_In in Hin. destruct Hin as [_ Hn]. discriminate.
  - exists dates. rewrite Hdates. repeat split; [lia| |].
    + intros r Hr. apply filter_In in Hr. destruct Hr as [Hr Ht].
      destruct (Forall2_In_r _ _ _ _ HF Hr) as [d [? ?]]. eauto.
    + clear - HF. induction HF as [|d r ds rs Hdr HF IH]; simpl; [reflexivity|].
      rewrite Hdr. destruct (truthy r); simpl; auto.
Qed.

Lemma result_bounded_and_nonempty_witness :
  (Z.of_nat (List.length sample_result) <= 3 /\
   ~ In [] sample_result /\
   exists dates,
     fst (date_range steady_clock 3) = Ok dates /\
     Z.of_nat (List.length dates) = 3 /\
     (forall r, In r sample_result ->
        exists d, In d dates /\ fst (@fetch_rates sample_fetcher d) = Ok r /\
                  truthy r = true) /\
     List.length sample_result =
       List.length (filter (fun d => match fst (@fetch_rates sample_fetcher d) with
                                     | Ok r => truthy r
                                     | Raise _ => false
                                     end) dates)) /\
  (exists res t, @get_rates_for_days sample_fetcher steady_clock [] 3 = (Ok res, t)).
Proof.
  destruct (result_bounded_and_nonempty sample_fetcher steady_clock [] 3 ltac:(lia))
    as [H1 H2].
  split.
  - apply (H1 sample_result sample_trace). reflexivity.
  - apply H2; [exact steady_clock_in_range | exact sample_fetcher_returns].
Defined.

(** C3. The claim promises the results most recent date first, descending
    to the oldest.  The order of the results is the order of the offsets,
    and the date of an offset comes from a clock reading of its own (line
    47): when the clock is set forward between two readings the result for
    01.03.2024 stands before the result for 04.03.2024, the older date
    first; and when midnight falls between them both results carry
    31.12.2023. *)
Theorem results_out_of_date_order :
  clock_in_range stepped_clock /\
  fst (@get_rates_for_days (PrivatBankCurrencyRatesFetcher always_net) stepped_clock [] 2)
    = Ok [[("01.03.2024", eur_rates)]; [("04.03.2024", eur_rates)]] /\
  ymd2ord 2024 3 1 < ymd2ord 2024 3 4 /\
  fst (@get_rates_for_days (PrivatBankCurrencyRatesFetcher always_net) midnight_clock [] 2)
    = Ok [[("31.12.2023", eur_rates)]; [("31.12.2023", eur_rates)]].
Proof.
  split; [|split; [|split]].
  - intros [|i]; unfold valid_datetime, valid_ymd; simpl; vm_compute;
      intuition discriminate.
  - reflexivity.
  - reflexivity.
  - reflexivity.
Qed.

Lemma date_at_same_day clock days i d :
  clock_in_range clock -> same_day clock days -> Z.of_nat i < days <= 10 ->
  fst (date_at clock i) = Ok d ->
  exists tm, d = strftime tm /\ valid_datetime tm /\
             toordinal tm = toordinal (clock 0%nat) - Z.of_nat i.
Proof.
  intros Hc Hs Hi Hd.
  destruct (date_at_in_range clock i Hc ltac:(lia)) as [tm [Hsub [Hv Ho]]].
  unfold date_at in Hd. simpl in Hd. rewrite Hsub in Hd. simpl in Hd.
  inversion Hd; subst. exists tm. rewrite <- (Hs i) by lia. auto.
Qed.

(** X19. While the readings of the clock stay on one calendar day, the
    elements of the returned list run along strictly increasing day
    offsets below [days], the element of offset [i] being the result
    fetched for the calendar date [i] days before today: the most recent
    date comes first and the dates descend strictly.  The same list comes
    back under every completion order of the concurrent fetches. *)
Theorem results_descend_on_one_day (fetcher : CurrencyRatesFetcher)
    clock completion days res t :
  1 <= days <= 10 -> clock_in_range clock -> same_day clock days ->
  get_rates_for_days clock completion days = (Ok res, t) ->
  (exists offsets,
     StronglySorted lt offsets /\
     Forall (fun i => Z.of_nat i < days) offsets /\
     Forall2 (fun i r => exists tm, valid_datetime tm /\
                                    toordinal tm = toordinal (clock 0%nat) - Z.of_nat i /\
                                    fst (fetch_rates (strftime tm)) = Ok r)
             offsets res) /\
  forall completion', fst (get_rates_for_days clock completion' days) = Ok res.
Proof.
  intros Hd Hc Hs H.
  destruct (get_rates_for_days_ok clock completion days res t Hd H)
    as [dates [results [Hdates [Hseq [Ho [-> _]]]]]].
  split.
  - assert (Hseq' : Forall2 (fun i d => exists tm, d = strftime tm /\ valid_datetime tm /\
                               toordinal tm = toordinal (clock 0%nat) - Z.of_nat i)
                            (seq 0 (Z.to_nat days)) dates).
    { apply (Forall2_impl_In _ _ _ _ Hseq). intros i d Hi Hid. apply in_seq in Hi.
      apply (date_at_same_day clock days i d Hc Hs); [lia|assumption]. }
    pose proof (Forall2_compose _ _ _ _ _ Hseq' (Forall2_map_eq _ _ _ Ho)) as HF.
    destruct (kept_offsets _ truthy _ _ (seq_sorted _ 0%nat) HF) as [offs [Hso [Hincl HF']]].
    exists offs. repeat split; auto.
    + apply Forall_forall. intros i Hi. apply Hincl, in_seq in Hi. lia.
    + eapply Forall2_impl; [|exact HF'].
      intros i r [d [[tm [-> [Hv Hord]]] Hr]]. exists tm. auto.
  - intros completion'.
    now rewrite (get_rates_for_days_run clock completion' days dates results _ Hd Hdates Ho).
Qed.

Lemma always_fetcher_run completion :
  fst (@get_rates_for_days (PrivatBankCurrencyRatesFetcher always_net) steady_clock completion 3)
  = Ok [[("01.03.2024", eur_rates)]; [("29.02.2024", eur_rates)]; [("28.02.2024", eur_rates)]].
Proof.
  rewrite (@get_rates_for_days_run (PrivatBankCurrencyRatesFetcher always_net) steady_clock
             completion 3 ["01.03.2024"; "29.02.2024"; "28.02.2024"]
             [[("01.03.2024", eur_rates)]; [("29.02.2024", eur_rates)];
              [("28.02.2024", eur_rates)]] (repeat Now 3));
    [reflexivity|lia|reflexivity|reflexivity].
Qed.

Lemma results_descend_on_one_day_witness :
  (exists offsets,
     StronglySorted lt offsets /\
     Forall (fun i => Z.of_nat i < 3) offsets /\
     Forall2 (fun i r => exists tm, valid_datetime tm /\
                toordinal tm = toordinal (steady_clock 0%nat) - Z.of_nat i /\
                fst (@fetch_rates (PrivatBankCurrencyRatesFetcher always_net) (strftime tm)) = Ok r)
             offsets
             [[("01.03.2024", eur_rates)]; [("29.02.2024", eur_rates)];
              [("28.02.2024", eur_rates)]]) /\
  forall completion',
    fst (@get_rates_for_days (PrivatBankCurrencyRatesFetcher always_net) steady_clock
           completion' 3)
    = Ok [[("01.03.2024", eur_rates)]; [("29.02.2024", eur_rates)]; [("28.02.2024", eur_rates)]].
Proof.
  apply (results_descend_on_one_day (PrivatBankCurrencyRatesFetcher always_net) steady_clock
           [2; 0; 1]%nat 3 _
           (snd (@get_rates_for_days (PrivatBankCurrencyRatesFetcher always_net) steady_clock
                   [2; 0; 1]%nat 3))).
  - lia.
  - exact steady_clock_in_range.
  - intros i _. reflexivity.
  - reflexivity.
Defined.

(** ** Malformed responses *)

(** C6, as stated, fails: a 200 response with JSON content type whose body
    is no JSON makes [fetch_rates] raise [JSONDecodeError], and one whose
    JSON is an array makes it raise [AttributeError]; nothing is printed,
    no empty result is returned, and [get_rates_for_days] raises too. *)
Lemma malformed_response_escapes :
  malformed NotJSON /\ malformed (Parsed (PyList [])) /\
  PrivatBank_fetch_rates garbled_net "01.03.2024" =
    (Raise JSONDecodeError, [Get "01.03.2024"]) /\
  PrivatBank_fetch_rates array_net "01.03.2024" =
    (Raise AttributeError, [Get "01.03.2024"]) /\
  @get_rates_for_days (PrivatBankCurrencyRatesFetcher garbled_net) steady_clock [] 1 =
    (Raise JSONDecodeError, [Now; Get "01.03.2024"]).
Proof. repeat split. Qed.

Lemma parse_entries_non_object items : forall acc,
  forallb is_dict items = false -> parse_entries acc items = Raise AttributeError.
Proof.
  induction items as [|r items IH]; simpl; intros acc H; [discriminate|].
  destruct r; simpl in H; try reflexivity.
  destruct (parse_entry_object acc fields) as [acc' ->]. simpl. auto.
Qed.

Lemma parse_response_ill_shaped data date :
  expected_shape data = false ->
  _parse_response data date = Raise AttributeError \/
  _parse_response data date = Raise TypeError \/
  _parse_response data date = Ok [].
Proof.
  intros H. unfold _parse_response.
  destruct data as [| | | | | |fields]; simpl; auto.
  simpl in H. destruct (dict_get "exchangeRate" fields) as [arr|]; simpl; auto.
  destruct arr as [| | | |s|items|d]; simpl; auto.
  - destruct s; simpl; auto.
  - rewrite (parse_entries_non_object _ _ H). auto.
  - destruct d as [|[k v] d]; simpl; auto.
Qed.

(** C6, amended. A malformed response is treated as a transport failure
    (caught, printed, empty result) exactly when it comes with a status of
    400 or more or without the JSON content type, which aiohttp raises as
    [ClientError]s.  With a status below 400 and the JSON content type
    nothing is caught or printed: a body that is no JSON raises
    [JSONDecodeError] out of [fetch_rates], and JSON of another shape
    raises [AttributeError] or [TypeError] or gives the empty result. *)
Theorem malformed_response_outcome net date status ctype b :
  net date = Response status ctype b ->
  malformed b ->
  (400 <= status \/ ctype = false ->
   exists e, PrivatBank_fetch_rates net date =
             (Ok [], [Get date; Printed date (ClientError e)])) /\
  (status < 400 -> ctype = true ->
   exists r, PrivatBank_fetch_rates net date = (r, [Get date]) /\
     (b = NotJSON -> r = Raise JSONDecodeError) /\
     (b <> NotJSON -> r = Raise AttributeError \/ r = Raise TypeError \/ r = Ok [])).
Proof.
  intros Hnet Hb. unfold PrivatBank_fetch_rates, request. rewrite Hnet.
  unfold raise_for_status, json. split.
  - intros Hc. destruct (400 <=? status) eqn:Es; simpl; eauto.
    destruct Hc as [Hc| ->]; [apply Z.leb_gt in Es; lia|]. simpl. eauto.
  - intros Hs ->. replace (400 <=? status) with false by (symmetry; apply Z.leb_gt; lia).
    simpl. destruct b as [|data]; simpl.
    + eexists. split; [reflexivity|]. split; auto. congruence.
    + simpl in Hb.
      destruct (parse_response_ill_shaped data date Hb) as [E|[E|E]]; rewrite E;
        eexists; (split; [reflexivity|]); (split; [discriminate|]); auto.
Qed.

Lemma malformed_response_outcome_witness :
  (400 <= 200 \/ true = false ->
   exists e, PrivatBank_fetch_rates garbled_net "01.03.2024" =
             (Ok [], [Get "01.03.2024"; Printed "01.03.2024" (ClientError e)])) /\
  (200 < 400 -> true = true ->
   exists r, PrivatBank_fetch_rates garbled_net "01.03.2024" = (r, [Get "01.03.2024"]) /\
     (NotJSON = NotJSON -> r = Raise JSONDecodeError) /\
     (NotJSON <> NotJSON -> r = Raise AttributeError \/ r = Raise TypeError \/ r = Ok [])).
Proof.
  apply (malformed_response_outcome garbled_net "01.03.2024" 200 true NotJSON).
  - reflexivity.
  - exact I.
Defined.

(** ** Failing transport and failing stub *)

(** C7, as stated, fails: with a fetcher whose calls raise, the service
    raises as well, [asyncio.gather] handing the error on. *)
Lemma failing_stub_propagates :
  @get_rates_for_days failing_stub steady_clock [] 1 =
    (Raise (ClientError ClientConnectionError), [Now]) /\
  @get_rates_for_days failing_stub steady_clock [] 3 =
    (Raise (ClientError ClientConnectionError), [Now; Now; Now]).
Proof. split; reflexivity. Qed.

Lemma PrivatBank_transport_error net date e :
  net date = GetRaises (ClientError e) ->
  PrivatBank_fetch_rates net date = (Ok [], [Get date; Printed date (ClientError e)]).
Proof. intros H. unfold PrivatBank_fetch_rates, request. now rewrite H. Qed.

Lemma filter_all_empty {V : Type} n : filter (@truthy V) (repeat [] n) = [].
Proof. induction n; simpl; auto. Qed.

(** C7, amended. When every request of the provider fetcher raises a
    transport error ([aiohttp.ClientError]), [fetch_rates] absorbs it and
    [get_rates_for_days] returns the empty list for every day count in
    1..10.  A fetcher whose [fetch_rates] itself raises is not absorbed:
    the service raises. *)
Theorem transport_errors_absorbed_in_fetcher net (stub : CurrencyRatesFetcher)
    clock completion days :
  1 <= days <= 10 ->
  clock_in_range clock ->
  ((forall d, exists e, net d = GetRaises (ClientError e)) ->
   fst (@get_rates_for_days (PrivatBankCurrencyRatesFetcher net) clock completion days)
     = Ok []) /\
  ((forall d, exists e, fst (@fetch_rates stub d) = Raise e) ->
   exists e, fst (@get_rates_for_days stub clock completion days) = Raise e).
Proof.
  intros Hd Hc.
  destruct (date_range_total clock days Hd Hc) as [dates [Hrun HF]].
  split.
  - intros Hnet.
    rewrite (@get_rates_for_days_run (PrivatBankCurrencyRatesFetcher net) clock completion
               days dates (repeat [] (List.length dates)) _ Hd Hrun).
    + simpl. f_equal. apply filter_all_empty.
    + clear - Hnet. induction dates as [|d dates IH]; simpl; [reflexivity|].
      destruct (Hnet d) as [e He].
      rewrite (PrivatBank_transport_error _ _ _ He). simpl. f_equal. exact IH.
  - intros Hstub.
    destruct dates as [|d dates].
    + apply Forall2_length in HF. rewrite length_seq in HF. simpl in HF. lia.
    + destruct (Hstub d) as [e He].
      eapply (@get_rates_for_days_raise stub clock completion days (d :: dates) _ d e);
        simpl; eauto.
Qed.

Lemma transport_errors_absorbed_in_fetcher_witness :
  fst (@get_rates_for_days (PrivatBankCurrencyRatesFetcher dead_net) steady_clock [] 10)
    = Ok [] /\
  exists e, fst (@get_rates_for_days failing_stub steady_clock [] 10) = Raise e.
Proof.
  destruct (transport_errors_absorbed_in_fetcher dead_net failing_stub steady_clock [] 10
              ltac:(lia) steady_clock_in_range) as [H1 H2].
  split.
  - apply H1. intros d. now exists ClientConnectionError.
  - apply H2. intros d. now exists (ClientError ClientConnectionError).
Defined.

(** * Further properties *)

(** ** The command line *)

Lemma days_argument_cases int arg :
  (exists d, int arg = Some d /\ 1 <= d <= 10 /\ days_argument int arg = Ok d) \/
  ((forall d, int arg = Some d -> d < 1 \/ 10 < d) /\
   exists msg, days_argument int arg = Raise (ValueError msg)).
Proof.
  unfold days_argument. destruct (int arg) as [d|].
  - destruct ((d <? 1) || (d >? 10)) eqn:E.
    + right. split; [|eauto]. intros d' Hd'. inversion Hd'; subst.
      apply orb_true_iff in E. lia.
    + left. exists d. apply orb_false_iff in E. repeat split; auto; lia.
  - right. split; [discriminate|eauto].
Qed.

(** X1. [parse_args] returns a day count only when there is exactly one
    argument after the script name, [int] accepts it and the number lies in
    1..10, and then it returns that number and prints nothing.  Otherwise
    it prints one line and exits with status 1: the usage line when the
    argument count is wrong, the invalid-days line when the argument is no
    number or out of range.  No exception leaves it. *)
Theorem parse_args_spec int argv :
  (List.length argv <> 2%nat /\ parse_args int argv = (Exits 1, [Usage])) \/
  (List.length argv = 2%nat /\
   ((exists d, int (nth 1 argv "") = Some d /\ 1 <= d <= 10 /\
               parse_args int argv = (Returns d, [])) \/
    ((forall d, int (nth 1 argv "") = Some d -> d < 1 \/ 10 < d) /\
     parse_args int argv = (Exits 1, [InvalidDays])))).
Proof.
  unfold parse_args. destruct (Nat.eqb (List.length argv) 2) eqn:E; simpl.
  - apply Nat.eqb_eq in E. right. split; [assumption|].
    destruct (days_argument_cases int (nth 1 argv "")) as [[d [Hi [Hd ->]]]|[Hbad [msg ->]]].
    + left. eauto.
    + right. auto.
  - apply Nat.eqb_neq in E. left. auto.
Qed.

Lemma parse_args_valid int argv d :
  List.length argv = 2%nat -> int (nth 1 argv "") = Some d -> 1 <= d <= 10 ->
  parse_args int argv = (Returns d, []).
Proof.
  intros Hl Hi Hd. unfold parse_args, days_argument. rewrite Hl, Hi. simpl.
  replace ((d <? 1) || (d >? 10)) with false; [reflexivity|].
  symmetry. apply orb_false_iff. lia.
Qed.

Lemma parse_args_invalid int argv :
  List.length argv <> 2%nat \/ (forall d, int (nth 1 argv "") = Some d -> d < 1 \/ 10 < d) ->
  exists l, parse_args int argv = (Exits 1, [l]) /\ (l = Usage \/ l = InvalidDays).
Proof.
  intros H. unfold parse_args.
  destruct (Nat.eqb (List.length argv) 2) eqn:E; simpl; [|eauto].
  apply Nat.eqb_eq in E. destruct H as [H|H]; [contradiction|].
  destruct (days_argument_cases int (nth 1 argv "")) as [[d [Hi [Hd _]]]|[_ [msg ->]]].
  - specialize (H d Hi). lia.
  - eauto.
Qed.

(** X2. With a wrong argument count, an argument that [int] rejects or a
    number outside 1..10, [main] prints exactly one line (usage or invalid
    days) and the process ends with status 1; nothing else happens: no
    clock reading, no request. *)
Theorem main_rejects_bad_arguments int encodable net clock completion argv :
  List.length argv <> 2%nat \/ (forall d, int (nth 1 argv "") = Some d -> d < 1 \/ 10 < d) ->
  exit_status (fst (main int encodable net clock completion argv)) = 1 /\
  exists l, snd (main int encodable net clock completion argv) = [Out l] /\
            (l = Usage \/ l = InvalidDays).
Proof.
  intros H. destruct (parse_args_invalid int argv H) as [l [Hp Hl]].
  unfold main. rewrite Hp. simpl. eauto.
Qed.

Lemma main_rejects_bad_arguments_witness :
  exit_status (fst (main sample_int sample_encodable sample_net steady_clock [] ["currency-privat.py"; "11"])) = 1 /\
  exists l, snd (main sample_int sample_encodable sample_net steady_clock [] ["currency-privat.py"; "11"])
            = [Out l] /\ (l = Usage \/ l = InvalidDays).
Proof.
  apply (main_rejects_bad_arguments sample_int sample_encodable sample_net steady_clock []
           ["currency-privat.py"; "11"]).
  right. intros d Hd. vm_compute in Hd. inversion Hd. lia.
Defined.



Lemma forallb_is_dict items : forallb is_dict items = true -> Forall is_object items.
Proof.
  induction items as [|r items IH]; simpl; intros H; constructor.
  - destruct r; try discriminate. now exists fields.
  - apply IH. apply andb_true_iff in H. tauto.
Qed.

Lemma expected_shape_parses data date :
  expected_shape data = true -> exists daily, _parse_response data date = Ok daily.
Proof.
  intros H. destruct data as [| | | | | |fields]; try discriminate. simpl in H.
  destruct (dict_get "exchangeRate" fields) as [arr|] eqn:E; [|discriminate].
  destruct arr as [| | | | |items|]; try discriminate.
  apply (parse_response_objects _ date items).
  - unfold exchangeRate, py_get. rewrite E. reflexivity.
  - now apply forallb_is_dict.
Qed.

Lemma benign_fetch net date :
  benign (net date) -> exists r, fst (PrivatBank_fetch_rates net date) = Ok r.
Proof.
  unfold benign, PrivatBank_fetch_rates, request.
  destruct (net date) as [e|status ctype b].
  - intros [ce ->]. simpl. eauto.
  - intros H. unfold raise_for_status, json.
    destruct (400 <=? status) eqn:Es; cbn [bind fst]; [eauto|].
    destruct ctype; cbn [bind fst]; [|eauto].
    destruct H as [H|[H|[data [-> Hs]]]].
    + apply Z.leb_gt in Es. lia.
    + discriminate.
    + cbn [bind]. destruct (expected_shape_parses data date Hs) as [daily ->].
      cbn [fst]. eauto.
Qed.

(** X4. With a valid argument, a clock in range, every exchange either a
    transport error, an error status, a wrong content type or JSON of the
    expected shape, and rates whose text can be encoded for standard
    output, [main] prints the rates that [get_rates_for_days] returns, and
    not the error line. *)
Theorem main_prints_rates int encodable net clock completion argv d :
  List.length argv = 2%nat -> int (nth 1 argv "") = Some d -> 1 <= d <= 10 ->
  clock_in_range clock ->
  (forall date, benign (net date)) ->
  (forall rates,
     fst (@get_rates_for_days (PrivatBankCurrencyRatesFetcher net) clock completion d)
       = Ok rates -> encodable rates = true) ->
  exists rates t,
    @get_rates_for_days (PrivatBankCurrencyRatesFetcher net) clock completion d = (Ok rates, t) /\
    main int encodable net clock completion argv
      = (Returns tt, map Inner t ++ [Out (RatesJSON rates)]).
Proof.
  intros Hl Hi Hd Hc Hb He.
  destruct (get_rates_for_days_returns (PrivatBankCurrencyRatesFetcher net) clock completion d
              Hd Hc) as [rates [t Hrun]].
  { intros date. simpl. now apply benign_fetch. }
  exists rates, t. split; [assumption|].
  unfold main. rewrite (parse_args_valid int argv d Hl Hi Hd), Hrun.
  rewrite (He rates) by (now rewrite Hrun). reflexivity.
Qed.

Lemma sample_net_benign date : benign (sample_net date).
Proof.
  unfold sample_net.
  destruct (String.eqb date "01.03.2024"); [simpl; right; right; eexists; split; reflexivity|].
  destruct (String.eqb date "29.02.2024"); simpl.
  - left. lia.
  - right; right; eexists; split; reflexivity.
Qed.

Lemma main_prints_rates_witness :
  exists rates t,
    @get_rates_for_days (PrivatBankCurrencyRatesFetcher sample_net) steady_clock [] 3
      = (Ok rates, t) /\
    main sample_int sample_encodable sample_net steady_clock [] ["currency-privat.py"; "3"]
      = (Returns tt, map Inner t ++ [Out (RatesJSON rates)]).
Proof.
  apply (main_prints_rates sample_int sample_encodable sample_net steady_clock []
           ["currency-privat.py"; "3"] 3).
  - reflexivity.
  - reflexivity.
  - lia.
  - exact steady_clock_in_range.
  - exact sample_net_benign.
  - reflexivity.
Defined.

(** ** Where exceptions come from, and what is requested *)

Lemma for_each_raise {A B : Type} (f : A -> io B) l : forall e t,
  for_each f l = (Raise e, t) -> exists a, In a l /\ fst (f a) = Raise e.
Proof.
  induction l as [|a l IH]; simpl; intros e t H; [discriminate|].
  unfold io_bind in H. destruct (f a) as [[b|e0] t0] eqn:Ea.
  - destruct (for_each f l) as [[bs|e1] t1] eqn:El; simpl in H.
    + discriminate.
    + inversion H; subst. destruct (IH _ _ eq_refl) as [a' [? ?]]. eauto.
  - inversion H; subst. exists a. rewrite Ea. auto.
Qed.

Lemma first_raised_in {A : Type} completion (outs : list (outcome A)) e :
  first_raised completion outs = Some e -> In (Raise e) outs.
Proof.
  induction completion as [|i c IH]; simpl; [discriminate|].
  destruct (nth_error outs i) as [[a|e0]|] eqn:E; auto.
  intros H. inversion H; subst. eapply nth_error_In; eauto.
Qed.

Lemma collect_raise_in {A : Type} (outs : list (outcome A)) e :
  collect outs = Raise e -> In (Raise e) outs.
Proof.
  induction outs as [|[a|e0] outs IH]; simpl; intros H.
  - discriminate.
  - destruct (collect outs); simpl in H; [discriminate|]. inversion H; subst. auto.
  - inversion H; auto.
Qed.

Lemma gather_raise_in {A : Type} completion (tasks : list (task A)) e :
  fst (gather completion tasks) = Raise e -> In (Raise e) (map result tasks).
Proof.
  unfold gather. simpl.
  destruct (collect (map result tasks)) as [l|e0] eqn:E; [discriminate|].
  destruct (first_raised completion (map result tasks)) as [e1|] eqn:E1;
    intros H; inversion H; subst.
  - eapply first_raised_in; eauto.
  - now apply collect_raise_in.
Qed.

Lemma sub_days_raise t i e : sub_days t i = Raise e -> e = OverflowError.
Proof.
  unfold sub_days.
  destruct ((0 <? toordinal t - i) && (toordinal t - i <=? MAXORDINAL)).
  - destruct (ord2ymd (toordinal t - i)) as [[y m] d]. discriminate.
  - intros H. now inversion H.
Qed.

(** X5. For a day count in 1..10 the service raises nothing of its own:
    an exception that leaves [get_rates_for_days] is the [OverflowError]
    of a date computation that left the calendar, or an exception that the
    [fetch_rates] call of one of the generated dates raised. *)
Theorem service_exception_provenance (fetcher : CurrencyRatesFetcher)
    clock completion days e :
  1 <= days <= 10 ->
  fst (get_rates_for_days clock completion days) = Raise e ->
  (e = OverflowError /\
   exists i, Z.of_nat i < days /\ sub_days (clock i) (Z.of_nat i) = Raise OverflowError) \/
  (exists dates d, fst (date_range clock days) = Ok dates /\ In d dates /\
                   fst (fetch_rates d) = Raise e).
Proof.
  intros Hd H. unfold get_rates_for_days in H. rewrite (in_bounds _ Hd) in H.
  unfold io_bind in H.
  destruct (date_range clock days) as [[dates|e0] t1] eqn:Edates.
  - right. exists dates.
    destruct (gather completion (map call dates)) as [[results|e1] t2] eqn:Eg;
      simpl in H; [discriminate|].
    inversion H; subst.
    assert (Hin : In (Raise e) (map result (map call dates))).
    { apply (gather_raise_in completion). now rewrite Eg. }
    rewrite results_of_calls in Hin. apply in_map_iff in Hin. destruct Hin as [d [Hd' Hin]].
    exists d. auto.
  - left. simpl in H. inversion H; subst.
    unfold date_range in Edates. apply for_each_raise in Edates.
    destruct Edates as [i [Hi Hr]]. apply in_seq in Hi.
    unfold date_at in Hr. simpl in Hr.
    destruct (sub_days (clock i) (Z.of_nat i)) as [tm|e'] eqn:Es; [discriminate|].
    simpl in Hr. inversion Hr; subst.
    pose proof (sub_days_raise _ _ _ Es) as ->. split; [reflexivity|].
    exists i. split; [lia|assumption].
Qed.

Lemma service_exception_provenance_witness :
  (JSONDecodeError = OverflowError /\
   exists i, Z.of_nat i < 3 /\
             sub_days (steady_clock i) (Z.of_nat i) = Raise OverflowError) \/
  (exists dates d, fst (date_range steady_clock 3) = Ok dates /\ In d dates /\
                   fst (@fetch_rates (PrivatBankCurrencyRatesFetcher garbled_net) d)
                     = Raise JSONDecodeError).
Proof.
  apply (service_exception_provenance (PrivatBankCurrencyRatesFetcher garbled_net)
           steady_clock [] 3 JSONDecodeError).
  - lia.
  - reflexivity.
Defined.









Lemma settle_In {A : Type} (outs : list (outcome A)) order : forall seen i,
  In i (settle outs seen order) -> (i < List.length outs)%nat.
Proof.
  induction order as [|j order IH]; simpl; intros seen i H; [contradiction|].
  destruct (existsb (Nat.eqb j) seen); [eauto|].
  destruct (nth_error outs j) as [[a|e]|] eqn:E; [| |eauto].
  - destruct H as [<-|H]; [|eauto]. apply nth_error_Some. congruence.
  - destruct H as [<-|[]]. apply nth_error_Some. congruence.
Qed.


(** The outcome and the events of [gather] agree: the exception it hands
    on is that of the last task that ended. *)
Lemma first_raised_app {A : Type} l1 l2 (outs : list (outcome A)) :
  first_raised (l1 ++ l2) outs =
  match first_raised l1 outs with Some e => Some e | None => first_raised l2 outs end.
Proof.
  induction l1 as [|i l1 IH]; simpl; [reflexivity|].
  destruct (nth_error outs i) as [[a|e]|]; auto.
Qed.

Lemma first_raised_shift {A : Type} l (o : outcome A) outs :
  first_raised (map S l) (o :: outs) = first_raised l outs.
Proof. induction l as [|i l IH]; simpl; [reflexivity|]. now rewrite IH. Qed.

Lemma first_raised_collect {A : Type} (outs : list (outcome A)) e :
  collect outs = Raise e -> first_raised (seq 0 (List.length outs)) outs = Some e.
Proof.
  induction outs as [|[a|e0] outs IH]; simpl; intros H.
  - discriminate.
  - destruct (collect outs) as [l|e1] eqn:E; simpl in H; [discriminate|].
    inversion H; subst. rewrite <- seq_shift, first_raised_shift. auto.
  - congruence.
Qed.

Lemma settle_raise {A : Type} (outs : list (outcome A)) order e : forall seen,
  (forall j, In j seen -> forall e', nth_error outs j <> Some (Raise e')) ->
  first_raised order outs = Some e ->
  exists pre i, settle outs seen order = pre ++ [i] /\ nth_error outs i = Some (Raise e).
Proof.
  induction order as [|j order IH]; simpl; intros seen Hseen H; [discriminate|].
  destruct (nth_error outs j) as [[a|e0]|] eqn:E.
  - destruct (existsb (Nat.eqb j) seen); [now apply IH|].
    destruct (IH (j :: seen)) as [pre [i [Hs Hi]]]; auto.
    + intros k [<-|Hk]; [congruence|auto].
    + exists (j :: pre), i. rewrite Hs. auto.
  - inversion H; subst e0.
    destruct (existsb (Nat.eqb j) seen) eqn:Es.
    + exfalso. apply existsb_exists in Es. destruct Es as [x [Hx Heq]].
      apply Nat.eqb_eq in Heq. subst x. now apply (Hseen j Hx e).
    + exists [], j. auto.
  - destruct (existsb (Nat.eqb j) seen); now apply IH.
Qed.

Lemma gather_raise_settled {A : Type} completion (tasks : list (task A)) e :
  fst (gather completion tasks) = Raise e ->
  exists pre i,
    settle (map result tasks) [] (completion ++ seq 0 (List.length tasks)) = pre ++ [i] /\
    nth_error (map result tasks) i = Some (Raise e).
Proof.
  unfold gather. simpl. intros H.
  apply settle_raise; [intros j []|].
  rewrite first_raised_app.
  destruct (collect (map result tasks)) as [l|e0] eqn:E; [discriminate|].
  apply first_raised_collect in E. rewrite length_map in E.
  destruct (first_raised completion (map result tasks)); congruence.
Qed.



(** X8. [fetch_rates] of the provider never raises an
    [aiohttp.ClientError]: when the request ends in one, it returns the
    empty dict after one request and one printed diagnostic; in every
    other case it hands on what the request gave, value or exception,
    after one request and without printing. *)
Theorem fetch_rates_absorbs_ClientError net date :
  (forall ce, fst (PrivatBank_fetch_rates net date) <> Raise (ClientError ce)) /\
  (forall ce, request (net date) date = Raise (ClientError ce) ->
     PrivatBank_fetch_rates net date = (Ok [], [Get date; Printed date (ClientError ce)])) /\
  ((forall ce, request (net date) date <> Raise (ClientError ce)) ->
     PrivatBank_fetch_rates net date = (request (net date) date, [Get date])).
Proof.
  unfold PrivatBank_fetch_rates. split; [|split].
  - intros ce. destruct (request (net date) date) as [r|e]; [discriminate|].
    destruct e; discriminate.
  - intros ce ->. reflexivity.
  - intros H. destruct (request (net date) date) as [r|e]; [reflexivity|].
    destruct e; try reflexivity. exfalso. now apply (H e).
Qed.

(** ** More about the parser *)

Lemma dict_set_NoDup {V : Type} k (v : V) d :
  NoDup (dict_keys d) -> NoDup (dict_keys (dict_set k v d)).
Proof.
  unfold dict_keys. induction d as [|[k' v'] d IH]; simpl; intros H.
  - constructor; [intros []|constructor].
  - inversion H as [|? ? Hnot Hd]; subst.
    destruct (String.eqb k k') eqn:E; simpl.
    + constructor; assumption.
    + constructor; [|auto].
      intros Hin. apply (dict_keys_set k k' v d) in Hin. destruct Hin as [->|Hin].
      * rewrite String.eqb_refl in E. discriminate.
      * contradiction.
Qed.

Lemma parse_entries_NoDup items : forall acc rates,
  parse_entries acc items = Ok rates -> NoDup (dict_keys acc) -> NoDup (dict_keys rates).
Proof.
  induction items as [|rate items IH]; simpl; intros acc rates H Hnd.
  - now inversion H; subst.
  - destruct (parse_entry acc rate) as [acc'|] eqn:E; simpl in H; [|discriminate].
    apply (IH _ _ H).
    destruct (parse_entry_cases _ _ _ E) as [fields [_ [[k [_ [_ ->]]]|[_ ->]]]]; auto.
    now apply dict_set_NoDup.
Qed.

(** What [_parse_response] returns: nothing, or the rates under the
    date. *)
Lemma parse_response_result data date daily :
  _parse_response data date = Ok daily ->
  daily = [] \/
  exists rates, daily = [(date, rates)] /\ rates <> [] /\ NoDup (dict_keys rates) /\
                forall k, In k (dict_keys rates) -> k = "EUR" \/ k = "USD".
Proof.
  rewrite parse_response_unfold. intros H.
  destruct (exchangeRate data) as [items|]; simpl in H; [|discriminate].
  destruct (parse_entries [] items) as [rates|] eqn:E; simpl in H; [|discriminate].
  destruct (truthy rates) eqn:Et; inversion H; subst; auto.
  right. exists rates. repeat split.
  - intros ->. discriminate.
  - apply (parse_entries_NoDup _ _ _ E). constructor.
  - intros k Hk. apply (parse_entries_keys _ _ _ E) in Hk. simpl in Hk. tauto.
Qed.

(** X9. A result of [_parse_response] is the empty dict or a dict with the
    requested date as its only key; the rates under it are not empty, have
    no currency twice and so hold one or two records. *)
Theorem parse_response_shape data date daily :
  _parse_response data date = Ok daily ->
  daily = [] \/
  exists rates, daily = [(date, rates)] /\ NoDup (dict_keys rates) /\
                (1 <= List.length rates <= 2)%nat.
Proof.
  intros H. destruct (parse_response_result data date daily H)
    as [->|[rates [-> [Hne [Hnd Hk]]]]]; [now left|].
  right. exists rates. repeat split; auto.
  - destruct rates; [congruence|simpl; lia].
  - assert (Hincl : incl (dict_keys rates) currencies).
    { intros k Hin. destruct (Hk k Hin) as [-> | ->]; simpl; auto. }
    pose proof (NoDup_incl_length Hnd Hincl) as Hlen.
    unfold dict_keys in Hlen. rewrite length_map in Hlen. exact Hlen.
Qed.

Lemma parse_response_shape_witness :
  [("01.03.2024", [("EUR", {| sale := PyNone; purchase := PyInt 40 |})])] = [] \/
  exists rates,
    [("01.03.2024", [("EUR", {| sale := PyNone; purchase := PyInt 40 |})])]
      = [("01.03.2024", rates)] /\
    NoDup (dict_keys rates) /\ (1 <= List.length rates <= 2)%nat.
Proof.
  apply (parse_response_shape sample_response "01.03.2024"). reflexivity.
Defined.

Lemma parse_entry_dropped rates fields :
  keeps (PyDict fields) = false -> parse_entry rates (PyDict fields) = Ok rates.
Proof.
  unfold keeps, parse_entry, py_get. cbn [bind].
  destruct (match dict_get "currency" fields with Some v => v | None => PyNone end);
    try reflexivity.
  now intros ->.
Qed.

Lemma parse_entries_filter items : forall acc,
  Forall is_object items ->
  parse_entries acc items = parse_entries acc (filter keeps items).
Proof.
  induction items as [|rate items IH]; simpl; intros acc H; [reflexivity|].
  inversion H as [|? ? [fields ->] Hrest]; subst.
  destruct (keeps (PyDict fields)) eqn:E.
  - simpl. destruct (parse_entry acc (PyDict fields)); simpl; auto.
  - rewrite (parse_entry_dropped _ _ E). simpl. auto.
Qed.

(** X10. The entries that do not carry EUR or USD have no influence: for
    an array of objects, the response parses to the same result as the
    response with only the EUR and USD entries left in the array. *)
Theorem other_entries_have_no_influence data data' date items :
  exchangeRate data = Ok items ->
  exchangeRate data' = Ok (filter keeps items) ->
  Forall is_object items ->
  _parse_response data date = _parse_response data' date.
Proof.
  intros Hx Hx' Hall. rewrite !parse_response_unfold, Hx, Hx'. simpl.
  now rewrite (parse_entries_filter items [] Hall).
Qed.

Lemma other_entries_have_no_influence_witness :
  _parse_response eur_only "01.03.2024" =
  _parse_response
    (PyDict [("exchangeRate",
              PyList [PyDict [("currency", PyStr "EUR"); ("saleRate", PyInt 42)]])])
    "01.03.2024".
Proof.
  apply (other_entries_have_no_influence eur_only _ "01.03.2024"
           [PyDict [("currency", PyStr "GBP"); ("saleRate", PyInt 50)];
            PyDict [("currency", PyStr "EUR"); ("saleRate", PyInt 42)]]).
  - reflexivity.
  - reflexivity.
  - repeat constructor; eexists; reflexivity.
Defined.

Lemma Forall_is_object items : Forall is_object items -> forallb is_dict items = true.
Proof.
  induction 1 as [|r items [fields ->] _ IH]; simpl; auto.
Qed.

(** X12. [_parse_response] returns the empty dict exactly when the
    response has an array to walk through (none at all counts as the empty
    array), every entry of it is an object, and no entry carries EUR or
    USD. *)
Theorem empty_result_iff data date :
  _parse_response data date = Ok [] <->
  exists items, exchangeRate data = Ok items /\ Forall is_object items /\
                forall rate, In rate items -> keeps rate = false.
Proof.
  rewrite parse_response_unfold. split.
  - intros H. destruct (exchangeRate data) as [items|]; simpl in H; [|discriminate].
    exists items. split; [reflexivity|].
    destruct (parse_entries [] items) as [rates|] eqn:E; simpl in H; [|discriminate].
    assert (Hr : rates = []).
    { destruct rates; [reflexivity|]. simpl in H. discriminate. }
    subst rates. split.
    + destruct (forallb is_dict items) eqn:Ef; [now apply forallb_is_dict|].
      rewrite (parse_entries_non_object _ _ Ef) in E. discriminate.
    + intros rate Hin. destruct (keeps rate) eqn:Ek; [|reflexivity]. exfalso.
      unfold keeps in Ek.
      destruct (py_get rate "currency" PyNone) as [[| | | |k| |]|] eqn:Eg; try discriminate.
      apply in_currencies in Ek.
      assert (Hk : In k (dict_keys (@nil (string * RateRecord)))).
      { apply (parse_entries_keys _ _ _ E). right. split; [assumption|].
        exists rate. split; assumption. }
      contradiction.
  - intros [items [-> [Hall Hno]]]. simpl.
    rewrite (parse_entries_filter items [] Hall).
    replace (filter keeps items) with (@nil value); [reflexivity|].
    symmetry. clear Hall. induction items as [|r items IH]; simpl; [reflexivity|].
    rewrite (Hno r (or_introl eq_refl)). apply IH. intros; apply Hno; now right.
Qed.

(** X11. One entry of the array that is no object spoils the call: the
    fetch of that date raises [AttributeError], whatever else the array
    holds, and with it [get_rates_for_days] raises, so that the rates of
    the other dates are lost as well. *)
Theorem spoiled_entry_fails_call net clock completion days dates d status data items :
  1 <= days <= 10 ->
  fst (date_range clock days) = Ok dates ->
  In d dates ->
  net d = Response status true (Parsed data) -> status < 400 ->
  exchangeRate data = Ok items -> forallb is_dict items = false ->
  PrivatBank_fetch_rates net d = (Raise AttributeError, [Get d]) /\
  exists e, fst (@get_rates_for_days (PrivatBankCurrencyRatesFetcher net) clock completion days)
            = Raise e.
Proof.
  intros Hd Hdates Hin Hnet Hs Hx Hbad.
  assert (Hf : PrivatBank_fetch_rates net d = (Raise AttributeError, [Get d])).
  { unfold PrivatBank_fetch_rates, request, raise_for_status, json. rewrite Hnet.
    replace (400 <=? status) with false by (symmetry; apply Z.leb_gt; lia).
    cbn [bind]. rewrite parse_response_unfold, Hx. cbn [bind].
    rewrite (parse_entries_non_object _ _ Hbad). reflexivity. }
  split; [assumption|].
  destruct (date_range clock days) as [o t1] eqn:E. simpl in Hdates. subst o.
  apply (@get_rates_for_days_raise (PrivatBankCurrencyRatesFetcher net) clock completion
           days dates t1 d AttributeError Hd E Hin).
  simpl. now rewrite Hf.
Qed.

Lemma spoiled_entry_fails_call_witness :
  PrivatBank_fetch_rates spoiled_net "29.02.2024" = (Raise AttributeError, [Get "29.02.2024"]) /\
  exists e, fst (@get_rates_for_days (PrivatBankCurrencyRatesFetcher spoiled_net)
                   steady_clock [] 3) = Raise e.
Proof.
  apply (spoiled_entry_fails_call spoiled_net steady_clock [] 3
           ["01.03.2024"; "29.02.2024"; "28.02.2024"] "29.02.2024" 200 spoiled
           [PyDict [("currency", PyStr "EUR"); ("saleRate", PyInt 42)]; PyInt 7]).
  - lia.
  - reflexivity.
  - simpl. auto.
  - reflexivity.
  - lia.
  - reflexivity.
  - reflexivity.
Defined.

(** ** More about the dates and the result *)

Lemma steady_clock_same_day days : same_day steady_clock days.
Proof. intros i _. reflexivity. Qed.

Lemma date_range_same_day_witness :
  exists dates,
    date_range steady_clock 3 = (Ok dates, repeat Now (Z.to_nat 3)) /\
    Z.of_nat (List.length dates) = 3 /\
    NoDup dates /\
    Forall2 (fun i d => exists tm, d = strftime tm /\ valid_datetime tm /\
                                   toordinal tm = toordinal (steady_clock 0%nat) - Z.of_nat i)
            (seq 0 (Z.to_nat 3)) dates.
Proof.
  apply (date_range_same_day steady_clock 3).
  - lia.
  - exact steady_clock_in_range.
  - exact (steady_clock_same_day 3).
Defined.


Lemma PrivatBank_fetch_result net date r t :
  PrivatBank_fetch_rates net date = (Ok r, t) ->
  r = [] \/
  exists rates, r = [(date, rates)] /\ rates <> [] /\ NoDup (dict_keys rates) /\
                forall k, In k (dict_keys rates) -> k = "EUR" \/ k = "USD".
Proof.
  unfold PrivatBank_fetch_rates. intros H.
  destruct (request (net date) date) as [r'|e] eqn:E.
  - inversion H; subst. clear H. unfold request in E.
    destruct (net date) as [e|status ctype b]; [discriminate|].
    destruct (raise_for_status status); cbn [bind] in E; [|discriminate].
    destruct (json ctype b) as [data|]; cbn [bind] in E; [|discriminate].
    now apply (parse_response_result data date).
  - destruct e; inversion H; auto.
Qed.

(** X15. For a day count in 1..10, every element of the list that the
    service returns with the provider fetcher is a dict with one key, one
    of the generated dates, over one or two records keyed EUR or USD, no
    currency twice. *)
Theorem service_result_shape net clock completion days res t :
  1 <= days <= 10 ->
  @get_rates_for_days (PrivatBankCurrencyRatesFetcher net) clock completion days = (Ok res, t) ->
  exists dates, fst (date_range clock days) = Ok dates /\
    Forall (fun r => exists d rates,
                r = [(d, rates)] /\ In d dates /\ rates <> [] /\
                NoDup (dict_keys rates) /\
                forall k, In k (dict_keys rates) -> k = "EUR" \/ k = "USD") res.
Proof.
  intros Hd H.
  destruct (@get_rates_for_days_ok (PrivatBankCurrencyRatesFetcher net) clock completion
              days res t Hd H) as [dates [results [Hdates [_ [Ho [-> _]]]]]].
  exists dates. rewrite Hdates. split; [reflexivity|].
  apply Forall_forall. intros r Hr. apply filter_In in Hr. destruct Hr as [Hr Ht].
  pose proof (Forall2_map_eq _ _ _ Ho) as HF.
  destruct (Forall2_In_r _ _ _ _ HF Hr) as [d [Hin Hf]]. simpl in Hf.
  destruct (PrivatBank_fetch_rates net d) as [o t'] eqn:E. simpl in Hf. subst o.
  destruct (PrivatBank_fetch_result _ _ _ _ E) as [->|[rates [-> Hrest]]]; [discriminate|].
  exists d, rates. tauto.
Qed.

Lemma service_result_shape_witness :
  exists dates, fst (date_range steady_clock 3) = Ok dates /\
    Forall (fun r => exists d rates,
                r = [(d, rates)] /\ In d dates /\ rates <> [] /\
                NoDup (dict_keys rates) /\
                forall k, In k (dict_keys rates) -> k = "EUR" \/ k = "USD") sample_result.
Proof.
  apply (service_result_shape sample_net steady_clock [] 3 sample_result sample_trace).
  - lia.
  - reflexivity.
Defined.

Lemma generated_dates_NoDup clock days dates :
  1 <= days <= 10 -> clock_in_range clock -> same_day clock days ->
  fst (date_range clock days) = Ok dates -> NoDup dates.
Proof.
  intros Hd Hc Hs Hdates.
  destruct (date_range_total clock days Hd Hc) as [dates' [Hrun HF]].
  rewrite Hrun in Hdates. simpl in Hdates. inversion Hdates; subst dates'.
  apply (Forall2_NoDup _ _ _ HF (seq_NoDup _ _)).
  intros i i' d Hi Hi' [tm [_ [Hv [Ho ->]]]] [tm' [_ [Hv' [Ho' Heq]]]].
  apply in_seq in Hi, Hi'.
  destruct (strftime_inj _ _ Hv Hv' Heq) as (Ey & Em & Ed).
  rewrite (Hs i) in Ho by lia. rewrite (Hs i') in Ho' by lia.
  unfold toordinal in *. rewrite Ey, Em, Ed in Ho. lia.
Qed.

Lemma kept_keys_NoDup (dates : list string) (results : list DailyRates) :
  Forall2 (fun d r => r = [] \/ exists rates, r = [(d, rates)]) dates results ->
  NoDup dates ->
  NoDup (List.concat (map dict_keys (filter truthy results))) /\
  incl (List.concat (map dict_keys (filter truthy results))) dates.
Proof.
  induction 1 as [|d r dates results Hdr HF IH]; simpl; intros Hnd.
  - split; [constructor|apply incl_refl].
  - inversion Hnd as [|? ? Hnot Hnd']; subst. destruct (IH Hnd') as [IH1 IH2].
    destruct Hdr as [->|[rates ->]]; simpl.
    + split; [assumption|]. intros x Hx. right. auto.
    + split.
      * constructor; [|assumption]. intros Hin. apply Hnot. auto.
      * intros x [->|Hx]; [now left|right; auto].
Qed.

(** X17. While the readings of the clock stay on one calendar day, no date
    occurs twice in the list that the service returns with the provider
    fetcher: the keys of its elements are pairwise different dates. *)
Theorem result_dates_distinct net clock completion days res t :
  1 <= days <= 10 -> clock_in_range clock -> same_day clock days ->
  @get_rates_for_days (PrivatBankCurrencyRatesFetcher net) clock completion days = (Ok res, t) ->
  NoDup (List.concat (map dict_keys res)).
Proof.
  intros Hd Hc Hs H.
  destruct (@get_rates_for_days_ok (PrivatBankCurrencyRatesFetcher net) clock completion
              days res t Hd H) as [dates [results [Hdates [_ [Ho [-> _]]]]]].
  assert (Hnd : NoDup dates).
  { apply (generated_dates_NoDup clock days dates Hd Hc Hs). now rewrite Hdates. }
  apply (kept_keys_NoDup dates results); [|assumption].
  apply (Forall2_impl_In _ _ _ _ (Forall2_map_eq _ _ _ Ho)).
  intros d r _ Hf. simpl in Hf.
  destruct (PrivatBank_fetch_rates net d) as [o t'] eqn:E. simpl in Hf. subst o.
  destruct (PrivatBank_fetch_rates_keyed _ _ _ _ E); auto.
Qed.

Lemma result_dates_distinct_witness :
  NoDup (List.concat (map dict_keys sample_result)).
Proof.
  apply (result_dates_distinct sample_net steady_clock [] 3 sample_result sample_trace).
  - lia.
  - exact steady_clock_in_range.
  - exact (steady_clock_same_day 3).
  - reflexivity.
Defined.

(** ** The guard of the service under main *)

Lemma date_range_raise clock days e t :
  date_range clock days = (Raise e, t) -> e = OverflowError.
Proof.
  unfold date_range. intros H. apply for_each_raise in H.
  destruct H as [i [_ Hr]]. unfold date_at in Hr. simpl in Hr.
  destruct (sub_days (clock i) (Z.of_nat i)) as [tm|e'] eqn:Es; [discriminate|].
  simpl in Hr. inversion Hr; subst. exact (sub_days_raise _ _ _ Es).
Qed.

Lemma not_in_inner l t : ~ In (Out l) (map Inner t).
Proof.
  intros H. apply in_map_iff in H. destruct H as [ev [Hev _]]. discriminate.
Qed.

(** X6. [main] validates the day count before it calls the service, so
    the service's own check never fires there: unless a fetch itself
    raises that very [ValueError], the error line of [main] never carries
    it, whatever the command line. *)
Theorem main_never_reports_day_guard int encodable net clock completion argv msg :
  (forall d, fst (PrivatBank_fetch_rates net d) <> Raise (ValueError msg)) ->
  ~ In (Out (ErrorOccurred (ValueError msg))) (snd (main int encodable net clock completion argv)).
Proof.
  intros Hnet Hin.
  assert (Hbad : List.length argv <> 2%nat \/
                 (forall d, int (nth 1 argv "") = Some d -> d < 1 \/ 10 < d) ->
                 False).
  { intros Hb. destruct (parse_args_invalid int argv Hb) as [l [Hp Hl]].
    unfold main in Hin. rewrite Hp in Hin. simpl in Hin.
    destruct Hin as [Hin|[]]. destruct Hl; subst; discriminate. }
  destruct (Nat.eq_dec (List.length argv) 2) as [Hlen|Hlen]; [|now apply Hbad; left].
  destruct (days_argument_cases int (nth 1 argv "")) as [[d [Hi [Hd _]]]|[Hno _]];
    [|now apply Hbad; right].
  unfold main in Hin. rewrite (parse_args_valid int argv d Hlen Hi Hd) in Hin.
  unfold get_rates_for_days in Hin. rewrite (in_bounds _ Hd) in Hin.
  unfold io_bind in Hin.
  destruct (date_range clock d) as [[dates|e0] t1] eqn:Edates.
  - destruct (gather completion (map (@call (PrivatBankCurrencyRatesFetcher net)) dates))
      as [[results|e1] t2] eqn:Eg; cbn [fst snd ret] in Hin.
    + destruct (encodable (filter truthy results)); simpl in Hin;
        apply in_app_or in Hin; destruct Hin as [Hin|[Hin|[]]];
        try discriminate; now apply not_in_inner in Hin.
    + simpl in Hin. apply in_app_or in Hin. destruct Hin as [Hin|[Hin|[]]];
        [now apply not_in_inner in Hin|].
      inversion Hin; subst.
      assert (Hraised : In (Raise (ValueError msg))
                           (map result (map (@call (PrivatBankCurrencyRatesFetcher net)) dates))).
      { apply (gather_raise_in completion). now rewrite Eg. }
      rewrite results_of_calls in Hraised. apply in_map_iff in Hraised.
      destruct Hraised as [d' [Hd' _]]. now apply (Hnet d').
  - simpl in Hin. apply in_app_or in Hin. destruct Hin as [Hin|[Hin|[]]];
      [now apply not_in_inner in Hin|].
    inversion Hin; subst. apply date_range_raise in Edates. discriminate.
Qed.

Lemma main_never_reports_day_guard_witness :
  ~ In (Out (ErrorOccurred (ValueError "Number of days must be between 1 and 10")))
       (snd (main sample_int sample_encodable sample_net steady_clock [] ["currency-privat.py"; "11"])).
Proof.
  apply (main_never_reports_day_guard sample_int sample_encodable sample_net steady_clock []).
  intros d. destruct (sample_fetcher_returns d) as [r Hr]. simpl in Hr.
  rewrite Hr. discriminate.
Defined.

(** X18. For a day count in 1..10, when the fetch of every generated date
    returns a non-empty result, nothing is dropped: the returned list is
    the list of those results, one per date and in date order, and it has
    exactly [days] elements. *)
Theorem nothing_dropped_when_all_have_data (fetcher : CurrencyRatesFetcher)
    clock completion days dates res t :
  1 <= days <= 10 ->
  fst (date_range clock days) = Ok dates ->
  (forall d, In d dates -> exists r, fst (fetch_rates d) = Ok r /\ truthy r = true) ->
  get_rates_for_days clock completion days = (Ok res, t) ->
  map (fun d => fst (fetch_rates d)) dates = map Ok res /\
  Z.of_nat (List.length res) = days.
Proof.
  intros Hd Hdates Hall H.
  destruct (get_rates_for_days_ok clock completion days res t Hd H)
    as [dates' [results [Hrun [Hseq [Ho [-> _]]]]]].
  rewrite Hrun in Hdates. simpl in Hdates. inversion Hdates; subst dates'.
  assert (Hkeep : filter truthy results = results).
  { pose proof (Forall2_map_eq _ _ _ Ho) as HF. clear - HF Hall.
    induction HF as [|d r ds rs Hdr HF IH]; simpl; [reflexivity|].
    destruct (Hall d (or_introl eq_refl)) as [r' [Hr' Ht]].
    rewrite Hdr in Hr'. inversion Hr'; subst r'. rewrite Ht. f_equal.
    apply IH. intros d' Hd'. apply Hall. now right. }
  rewrite Hkeep. split; [assumption|].
  apply Forall2_length in Hseq. rewrite length_seq in Hseq.
  apply (f_equal (@List.length _)) in Ho. rewrite !length_map in Ho. lia.
Qed.

Lemma nothing_dropped_when_all_have_data_witness :
  map (fun d => fst (@fetch_rates sample_fetcher d)) ["01.03.2024"] = map Ok sample_result /\
  Z.of_nat (List.length sample_result) = 1.
Proof.
  apply (nothing_dropped_when_all_have_data sample_fetcher steady_clock [] 1
           ["01.03.2024"] sample_result [Now; Get "01.03.2024"]).
  - lia.
  - reflexivity.
  - intros d [<-|[]]. eexists. split; reflexivity.
  - reflexivity.
Defined.
